(** * EmailSender: a shallow embedding of [app/tool/email_sender.py]

    The tool reads SMTP settings from the application configuration, builds
    a MIME message, hands it to an SMTP session and reports the outcome as an
    [EmailResult].  The embedding keeps the control flow of the Python code:
    exceptions, [try]/[except] filters, the [with] block around the SMTP
    session and the order of the logger and SMTP calls are all explicit.

    What lives outside the repository (the configuration object, pydantic's
    field validation, the MIME encoder and the SMTP server) is gathered in a
    [World] record that every operation receives.

    A [string] stands for a Python [str] in generalised UTF-8: a character
    outside ASCII is its UTF-8 bytes, and a surrogate code point (U+D800 to
    U+DFFF), which a [str] may hold, is the three bytes [ED A0..BF 80..BF]. *)

From Stdlib Require Import String Ascii List Bool ZArith Lia.
Import ListNotations.

Local Open Scope list_scope.
Local Open Scope string_scope.

(** ** Python values and exceptions *)

(** The values a configuration attribute may hold.  [PyObj cls attrs] is an
    object of class [cls] whose attributes are [attrs]. *)
#[warnings="-register-all"]
Inductive pyval : Type :=
| PyNone
| PyBool (b : bool)
| PyInt (z : Z)
| PyStr (s : string)
| PyObj (cls : string) (attrs : list (string * pyval)).

(** The exception classes that occur.  [CancelledError] derives from
    [BaseException] only, so [except Exception] lets it through. *)
Inductive exn_class : Type :=
| AttributeError
| ValidationError
| UnicodeEncodeError
| SMTPException
| OSError
| CancelledError.

Record exn : Type := mk_exn { exn_cls : exn_class; exn_text : string }.

Definition exn_class_eqb (a b : exn_class) : bool :=
  match a, b with
  | AttributeError, AttributeError
  | ValidationError, ValidationError
  | UnicodeEncodeError, UnicodeEncodeError
  | SMTPException, SMTPException
  | OSError, OSError
  | CancelledError, CancelledError => true
  | _, _ => false
  end.

(** [except Exception] *)
Definition is_Exception (e : exn) : bool :=
  negb (exn_class_eqb (exn_cls e) CancelledError).

(** [except AttributeError] *)
Definition is_AttributeError (e : exn) : bool :=
  exn_class_eqb (exn_cls e) AttributeError.

(** [str(e)] *)
Definition str (e : exn) : string := exn_text e.

(** ** Messages *)

(** [MIMEText(body, subtype)]: a part of content type [text/<subtype>]. *)
Record MIMEText : Type := mk_MIMEText { subtype : string; payload : string }.

(** A multipart message: headers in the order they were set, and the
    attached parts. *)
Record Message : Type := mk_Message {
  headers : list (string * string);
  parts : list MIMEText
}.

(** [MIMEMultipart()]: the constructor of the base class sets the content
    type and the MIME version. *)
Definition MIMEMultipart : Message :=
  {| headers := [("Content-Type", "multipart/mixed"); ("MIME-Version", "1.0")];
     parts := [] |}.

(** [msg[name] = value] appends a header. *)
Definition msg_set (msg : Message) (name value : string) : Message :=
  {| headers := (headers msg ++ [(name, value)])%list; parts := parts msg |}.

(** [msg.attach(part)] *)
Definition attach (msg : Message) (part : MIMEText) : Message :=
  {| headers := headers msg; parts := (parts msg ++ [part])%list |}.

Definition ascii_lower (c : ascii) : ascii :=
  let n := nat_of_ascii c in
  if (65 <=? n)%nat && (n <=? 90)%nat then ascii_of_nat (n + 32) else c.

Fixpoint lower (s : string) : string :=
  match s with
  | EmptyString => EmptyString
  | String c r => String (ascii_lower c) (lower r)
  end.

(** The stored value of the first header of that name, compared without
    case; [None] when there is none. *)
Fixpoint find_header (name : string) (hs : list (string * string)) : option string :=
  match hs with
  | [] => None
  | (k, v) :: r => if String.eqb (lower k) name then Some v else find_header name r
  end.

Definition msg_get (msg : Message) (name : string) : option string :=
  find_header (lower name) (headers msg).

(** [email.utils._has_surrogates]: the string holds a surrogate code point,
    that is a byte [ED] followed by a byte from [A0] to [BF]. *)
Fixpoint has_surrogates (s : string) : bool :=
  match s with
  | EmptyString => false
  | String c r =>
      match r with
      | EmptyString => false
      | String d _ =>
          if (nat_of_ascii c =? 237)%nat && (160 <=? nat_of_ascii d)%nat
             && (nat_of_ascii d <=? 191)%nat
          then true
          else has_surrogates r
      end
  end.

(** What [msg[name]] gives for a header that is there: the stored string,
    or an [email.header.Header] object made from it. *)
Inductive header_value : Type :=
| HStr (s : string)
| HHeader (s : string).

(** [header_fetch_parse] of the [compat32] policy: a value with surrogates
    comes back as a [Header] of charset unknown-8bit. *)
Definition header_fetch_parse (value : string) : header_value :=
  if has_surrogates value then HHeader value else HStr value.

(** [msg[name]] *)
Definition msg_getitem (msg : Message) (name : string) : option header_value :=
  option_map header_fetch_parse (msg_get msg name).

(** U+FFFD, the replacement character. *)
Definition replacement : string :=
  String "239" (String "191" (String "189" EmptyString)).

(** [str(h)] of an unknown-8bit [Header] made from [s]: the string is
    encoded to ASCII with [surrogateescape] and decoded back with
    [replace].  Each escaped byte (U+DC80 to U+DCFF, the bytes [ED B2..B3 xx])
    becomes U+FFFD; any other character outside ASCII makes the encoding
    raise [UnicodeEncodeError], which is [None] here. *)
Fixpoint header_str (s : string) : option string :=
  match s with
  | EmptyString => Some EmptyString
  | String c r =>
      if (nat_of_ascii c <? 128)%nat then option_map (String c) (header_str r)
      else
        match r with
        | String d (String e r') =>
            if (nat_of_ascii c =? 237)%nat
               && ((nat_of_ascii d =? 178)%nat || (nat_of_ascii d =? 179)%nat)
            then option_map (append replacement) (header_str r')
            else None
        | _ => None
        end
  end.

(** ** Effects: the trace of logger and SMTP calls *)

Inductive log_level : Type := INFO | ERROR.

Inductive event : Type :=
| Log (level : log_level) (text : string)
| SmtpConnect (host : string) (port : Z)
| SmtpStartTLS
| SmtpLogin (user password : string)
| SmtpSendmail (from_addr : string) (to_addrs : list string) (msg : Message)
| SmtpQuit.

Definition trace : Type := list event.

Inductive outcome (A : Type) : Type :=
| Return (a : A)
| Raise (e : exn).
Arguments Return {A} a.
Arguments Raise {A} e.

(** A computation reads the trace so far and gives a value or an exception,
    and the extended trace. *)
Definition M (A : Type) : Type := trace -> outcome A * trace.

Definition ret {A} (a : A) : M A := fun tr => (Return a, tr).

Definition raise {A} (e : exn) : M A := fun tr => (Raise e, tr).

Definition bind {A B} (c : M A) (k : A -> M B) : M B :=
  fun tr =>
    match c tr with
    | (Return a, tr') => k a tr'
    | (Raise e, tr') => (Raise e, tr')
    end.

Declare Scope py_scope.
Delimit Scope py_scope with py.
Notation "x <- c ;; k" := (bind c (fun x => k))
  (at level 61, c at next level, right associativity) : py_scope.
Notation "c ;; k" := (bind c (fun _ => k))
  (at level 61, right associativity) : py_scope.
Local Open Scope py_scope.

(** [try: body  except <filter> as e: handler e] *)
Definition try_except {A} (body : M A) (filter : exn -> bool) (handler : exn -> M A) : M A :=
  fun tr =>
    match body tr with
    | (Return a, tr') => (Return a, tr')
    | (Raise e, tr') => if filter e then handler e tr' else (Raise e, tr')
    end.

Definition emit (ev : event) : M unit := fun tr => (Return tt, (tr ++ [ev])%list).

(** [logger.info] and [logger.error] *)
Definition logger (level : log_level) (text : string) : M unit := emit (Log level text).

(** ** Configuration and result records *)

Record EmailConfig : Type := mk_EmailConfig {
  smtp_server : string;
  smtp_port : Z;
  smtp_username : string;
  smtp_password : string;
  use_tls : bool
}.

(** Modelled from the spec: [ToolResult] of [app/tool/base.py] is not part
    of the sources at hand; from it [EmailResult] inherits the optional
    [error] string and the derived [output]. *)
Record EmailResult : Type := mk_EmailResult {
  recipient : string;
  subject : string;
  message_sent : bool;
  error : option string;
  output : option string
}.

(** ** The world outside the repository *)

Record World : Type := mk_World {
  (** [app.config.config] *)
  config : pyval;
  (** pydantic's validation of a [str], [int] and [bool] field: the validated
      value, or [None] when the input is rejected *)
  validate_str : pyval -> option string;
  validate_int : pyval -> option Z;
  validate_bool : pyval -> option bool;
  (** [MIMEText(body, subtype)] has to encode the body and raises when it
      cannot *)
  mime_text_error : string -> string -> option exn;
  (** [msg.as_string()] raises when the message cannot be flattened *)
  as_string_error : Message -> option exn;
  (** the reply of the SMTP side to a call, given everything that happened
      before: [None] when the call returns, the exception otherwise *)
  smtp_reply : trace -> event -> option exn
}.

(** A call of an [smtplib.SMTP] method: recorded, then it returns or raises. *)
Definition smtp_call (w : World) (ev : event) : M unit :=
  fun tr =>
    match smtp_reply w tr ev with
    | None => (Return tt, (tr ++ [ev])%list)
    | Some e => (Raise e, (tr ++ [ev])%list)
    end.

(** ** Attribute access *)

Definition type_name (v : pyval) : string :=
  match v with
  | PyNone => "NoneType"
  | PyBool _ => "bool"
  | PyInt _ => "int"
  | PyStr _ => "str"
  | PyObj cls _ => cls
  end.

Fixpoint assoc (name : string) (l : list (string * pyval)) : option pyval :=
  match l with
  | [] => None
  | (k, v) :: r => if String.eqb k name then Some v else assoc name r
  end.

Definition lookup_attr (v : pyval) (name : string) : option pyval :=
  match v with
  | PyObj _ attrs => assoc name attrs
  | _ => None
  end.

(** [hasattr(v, name)] *)
Definition hasattr (v : pyval) (name : string) : bool :=
  match lookup_attr v name with Some _ => true | None => false end.

Definition no_attribute (v : pyval) (name : string) : exn :=
  mk_exn AttributeError
    ("'" ++ type_name v ++ "' object has no attribute '" ++ name ++ "'").

(** [v.name] *)
Definition getattr (v : pyval) (name : string) : M pyval :=
  match lookup_attr v name with
  | Some x => ret x
  | None => raise (no_attribute v name)
  end.

(** [getattr(v, name, default)] *)
Definition getattr_default (v : pyval) (name : string) (default : pyval) : pyval :=
  match lookup_attr v name with
  | Some x => x
  | None => default
  end.

(** ** Constructors of the pydantic models *)

Definition validation_error (model : string) : exn :=
  mk_exn ValidationError ("validation error for " ++ model).

(** [EmailConfig(smtp_server=.., smtp_port=.., ..)]: every field is
    validated; a rejected field raises [ValidationError]. *)
Definition EmailConfig_new (w : World) (server port username password tls : pyval)
  : M EmailConfig :=
  match validate_str w server, validate_int w port,
        validate_str w username, validate_str w password, validate_bool w tls with
  | Some s, Some p, Some u, Some pw, Some t =>
      ret {| smtp_server := s; smtp_port := p; smtp_username := u;
             smtp_password := pw; use_tls := t |}
  | _, _, _, _, _ => raise (validation_error "EmailConfig")
  end.

(** Truth value of an optional string: [None] and [""] are false. *)
Definition truthy_str (o : option string) : bool :=
  match o with
  | Some (String _ _) => true
  | _ => false
  end.

(** Truth value of an optional list: [None] and [[]] are false. *)
Definition truthy_list {A} (o : option (list A)) : bool :=
  match o with
  | Some (_ :: _) => true
  | _ => false
  end.

(** [EmailResult.populate_output], the validator run after construction. *)
Definition populate_output (self : EmailResult) : EmailResult :=
  if truthy_str (error self) then self
  else
    let status := if message_sent self then "successfully" else "failed to be" in
    {| recipient := recipient self;
       subject := subject self;
       message_sent := message_sent self;
       error := error self;
       output := Some ("Email to " ++ recipient self ++ " with subject '"
                       ++ subject self ++ "' was " ++ status ++ " sent.") |}.

(** [EmailResult(recipient=.., subject=.., message_sent=.., error=..)].
    [recipient] and [subject] are required strings; the arguments are the
    strings given, or [None] for a value that is not a string and is
    rejected. *)
Definition EmailResult_new (recipient subject : option string) (message_sent : bool)
    (error : option string) : M EmailResult :=
  match recipient, subject with
  | Some r, Some s =>
      ret (populate_output {| recipient := r; subject := s;
                              message_sent := message_sent;
                              error := error; output := None |})
  | _, _ => raise (validation_error "EmailResult")
  end.

(** ** The tool *)

(** [", ".join(cc)] *)
Definition join (sep : string) (l : list string) : string := String.concat sep l.

(** [f"{x}"] of an optional string *)
Definition fmt (o : option string) : string :=
  match o with
  | Some s => s
  | None => "None"
  end.

(** The exception of [str(h)] for a [Header] that cannot be shown. *)
Definition header_str_error : exn :=
  mk_exn UnicodeEncodeError "'ascii' codec can't encode character".

(** [f"{x}"] of what [msg[..]] gave back: ["None"], the string, or the
    [str] of the [Header], which may raise. *)
Definition header_text (v : option header_value) : M string :=
  match v with
  | None => ret "None"
  | Some (HStr s) => ret s
  | Some (HHeader s) =>
      match header_str s with
      | Some text => ret text
      | None => raise header_str_error
      end
  end.

(** What a required [str] field of a pydantic model takes of a value that
    [msg[..]] gave back: [None] and [Header] objects are rejected. *)
Definition valid_str (v : option header_value) : option string :=
  match v with
  | Some (HStr s) => Some s
  | _ => None
  end.

(** [EmailSender._get_email_config].  The keyword arguments are evaluated
    from left to right, all of them before [EmailConfig] is called; only
    [AttributeError] is handled. *)
Definition _get_email_config (w : World) : M (option EmailConfig) :=
  try_except
    (if negb (hasattr (config w) "email_config") then
       logger ERROR "Email configuration not found in app config" ;;
       ret None
     else
       ec <- getattr (config w) "email_config" ;;
       server <- getattr ec "smtp_server" ;;
       ec <- getattr (config w) "email_config" ;;
       port <- getattr ec "smtp_port" ;;
       ec <- getattr (config w) "email_config" ;;
       username <- getattr ec "smtp_username" ;;
       ec <- getattr (config w) "email_config" ;;
       password <- getattr ec "smtp_password" ;;
       ec <- getattr (config w) "email_config" ;;
       let tls := getattr_default ec "use_tls" (PyBool true) in
       c <- EmailConfig_new w server port username password tls ;;
       ret (Some c))
    is_AttributeError
    (fun e =>
       logger ERROR ("Missing email configuration: " ++ str e) ;;
       ret None).

(** [with smtplib.SMTP(host, port) as server: body].  The constructor
    connects; when it raises, the block is not entered and nothing is closed.
    Otherwise [__exit__] runs after the body on every path and sends QUIT; an
    exception of [__exit__] replaces the outcome of the body. *)
Definition with_SMTP {A} (w : World) (host : string) (port : Z) (body : M A) : M A :=
  smtp_call w (SmtpConnect host port) ;;
  fun tr =>
    match body tr with
    | (res, tr') =>
        match smtp_call w SmtpQuit tr' with
        | (Return _, tr'') => (res, tr'')
        | (Raise e, tr'') => (Raise e, tr'')
        end
    end.

(** [msg.as_string()]; the message stands for its own rendering. *)
Definition as_string (w : World) (msg : Message) : M Message :=
  match as_string_error w msg with
  | None => ret msg
  | Some e => raise e
  end.

(** The closure [_send] of [_send_email_async]. *)
Definition _send (w : World) (email_config : EmailConfig) (msg : Message)
    (recipients : list string) : M unit :=
  with_SMTP w (smtp_server email_config) (smtp_port email_config)
    ((if use_tls email_config then smtp_call w SmtpStartTLS else ret tt) ;;
     smtp_call w (SmtpLogin (smtp_username email_config) (smtp_password email_config)) ;;
     data <- as_string w msg ;;
     smtp_call w (SmtpSendmail (smtp_username email_config) recipients data)).

(** [EmailSender._send_email_async].  [run_in_executor] runs [_send] on a
    worker and the [await] hands back its return or its exception, so the
    call is a plain call here. *)
Definition _send_email_async (w : World) (email_config : EmailConfig) (msg : Message)
    (recipients : list string) : M EmailResult :=
  try_except
    (_send w email_config msg recipients ;;
     to_text <- header_text (msg_getitem msg "To") ;;
     subject_text <- header_text (msg_getitem msg "Subject") ;;
     logger INFO ("Email sent successfully to " ++ to_text
                  ++ " with subject '" ++ subject_text ++ "'") ;;
     EmailResult_new (valid_str (msg_getitem msg "To"))
       (valid_str (msg_getitem msg "Subject")) true None)
    is_Exception
    (fun e =>
       logger ERROR ("Error sending email: " ++ str e) ;;
       EmailResult_new (valid_str (msg_getitem msg "To"))
         (valid_str (msg_getitem msg "Subject")) false
         (Some ("Error sending email: " ++ str e))).

(** [MIMEText(body, subtype)] *)
Definition MIMEText_new (w : World) (body subtype : string) : M MIMEText :=
  match mime_text_error w body subtype with
  | None => ret {| subtype := subtype; payload := body |}
  | Some e => raise e
  end.

(** The headers set by [execute] (lines 115 to 122): From, To, Subject, and
    Cc when [cc] is true. *)
Definition message_headers (email_config : EmailConfig) (to subject : string)
    (cc : option (list string)) : Message :=
  let msg := MIMEMultipart in
  let msg := msg_set msg "From" (smtp_username email_config) in
  let msg := msg_set msg "To" to in
  let msg := msg_set msg "Subject" subject in
  match cc with
  | Some (a :: l) => msg_set msg "Cc" (join ", " (a :: l))
  | _ => msg
  end.

(** [recipients.extend(l)] under [if l:] *)
Definition extend_if (recipients : list string) (l : option (list string)) : list string :=
  match l with
  | Some (a :: r) => (recipients ++ a :: r)%list
  | _ => recipients
  end.

(** The recipient list of [execute] (lines 129 to 133). *)
Definition recipient_list (to : string) (cc bcc : option (list string)) : list string :=
  let recipients := [to] in
  let recipients := extend_if recipients cc in
  extend_if recipients bcc.

(** [content_type = "html" if is_html else "plain"] *)
Definition content_type (is_html : bool) : string :=
  if is_html then "html" else "plain".

(** [EmailSender.execute].  The configuration is read and the message is
    built before the [try]; only the dispatch is inside it. *)
Definition execute (w : World) (to subject body : string)
    (cc bcc : option (list string)) (is_html : bool) : M EmailResult :=
  email_config <- _get_email_config w ;;
  match email_config with
  | None =>
      EmailResult_new (Some to) (Some subject) false
        (Some "Email configuration is missing or incomplete in app config.")
  | Some email_config =>
      let msg := message_headers email_config to subject cc in
      part <- MIMEText_new w body (content_type is_html) ;;
      let msg := attach msg part in
      let recipients := recipient_list to cc bcc in
      try_except
        (_send_email_async w email_config msg recipients)
        is_Exception
        (fun e =>
           logger ERROR ("Failed to send email: " ++ str e) ;;
           EmailResult_new (Some to) (Some subject) false
             (Some ("Failed to send email: " ++ str e)))
  end.

(** ** Substrings *)

(** Python's [needle in hay] on strings. *)
Fixpoint contains (needle hay : string) : bool :=
  if prefix needle hay then true
  else match hay with
       | EmptyString => false
       | String _ r => contains needle r
       end.

(** ** Concrete worlds *)

Module Worlds.

(** Validators that accept exactly the values of the field's own type. *)
Definition exact_str (v : pyval) : option string :=
  match v with PyStr s => Some s | _ => None end.
Definition exact_int (v : pyval) : option Z :=
  match v with PyInt z => Some z | _ => None end.
Definition exact_bool (v : pyval) : option bool :=
  match v with PyBool b => Some b | _ => None end.

(** An [email_config] section with the given port and password. *)
Definition section (port password : pyval) : pyval :=
  PyObj "EmailSettings"
    [("smtp_server", PyStr "smtp.example.com");
     ("smtp_port", port);
     ("smtp_username", PyStr "agent@example.com");
     ("smtp_password", password);
     ("use_tls", PyBool true)].

(** The configuration object with its [email_config] attribute. *)
Definition app_config (email_config : pyval) : pyval :=
  PyObj "Config" [("email_config", email_config)].

(** What [section (PyInt 587) (PyStr password)] resolves to. *)
Definition settings (password : string) : EmailConfig :=
  {| smtp_server := "smtp.example.com"; smtp_port := 587;
     smtp_username := "agent@example.com"; smtp_password := password;
     use_tls := true |}.

(** A world whose MIME side never fails. *)
Definition world_of (cfg : pyval) (reply : trace -> event -> option exn) : World :=
  {| config := cfg;
     validate_str := exact_str;
     validate_int := exact_int;
     validate_bool := exact_bool;
     mime_text_error := fun _ _ => None;
     as_string_error := fun _ => None;
     smtp_reply := reply |}.

(** Every SMTP call returns. *)
Definition accepting : trace -> event -> option exn := fun _ _ => None.

(** A complete configuration, a server that accepts everything. *)
Definition working : World :=
  world_of (app_config (section (PyInt 587) (PyStr "hunter2"))) accepting.

(** No [email_config] attribute at all. *)
Definition unconfigured : World := world_of (PyObj "Config" []) accepting.

(** The section is there, [smtp_password] is not. *)
Definition no_password : World :=
  world_of (app_config (PyObj "EmailSettings"
              [("smtp_server", PyStr "smtp.example.com");
               ("smtp_port", PyInt 587);
               ("smtp_username", PyStr "agent@example.com")])) accepting.

(** The four required fields are there, [use_tls] is not. *)
Definition no_tls_flag : World :=
  world_of (app_config (PyObj "EmailSettings"
              [("smtp_server", PyStr "smtp.example.com");
               ("smtp_port", PyInt 587);
               ("smtp_username", PyStr "agent@example.com");
               ("smtp_password", PyStr "hunter2")])) accepting.

(** All four fields are there, the port is [None]. *)
Definition port_is_None : World :=
  world_of (app_config (section PyNone (PyStr "hunter2"))) accepting.

(** A server that rejects the login and repeats the password it was given. *)
Definition rejecting_login : trace -> event -> option exn :=
  fun _ ev =>
    match ev with
    | SmtpLogin _ password =>
        Some (mk_exn SMTPException ("(535, b'bad credentials: " ++ password ++ "')"))
    | _ => None
    end.

(** A complete configuration and that server. *)
Definition echoing : World :=
  world_of (app_config (section (PyInt 587) (PyStr "hunter2"))) rejecting_login.

(** A server that takes the login with the password [expected] only. *)
Definition checking (expected : string) : trace -> event -> option exn :=
  fun _ ev =>
    match ev with
    | SmtpLogin _ password =>
        if String.eqb password expected then None
        else Some (mk_exn SMTPException "(535, b'authentication failed')")
    | _ => None
    end.

(** A complete configuration with the given password and that server. *)
Definition guarded (password expected : string) : World :=
  world_of (app_config (section (PyInt 587) (PyStr password))) (checking expected).


(** A lone surrogate (U+D800), which UTF-8 cannot encode; the three bytes
    stand for the code point. *)
Definition lone_surrogate : string :=
  String "237" (String "160" (String "128" EmptyString)).

(** [MIMEText] fails on bodies that hold a lone surrogate, and only there. *)
Definition surrogates_rejected (body subtype : string) : option exn :=
  if contains lone_surrogate body then
    Some (mk_exn UnicodeEncodeError
            "'utf-8' codec can't encode character '\ud800': surrogates not allowed")
  else None.

(** A complete configuration, a server that accepts everything, and that
    [MIMEText]. *)
Definition strict_mime : World :=
  {| config := app_config (section (PyInt 587) (PyStr "hunter2"));
     validate_str := exact_str;
     validate_int := exact_int;
     validate_bool := exact_bool;
     mime_text_error := surrogates_rejected;
     as_string_error := fun _ => None;
     smtp_reply := accepting |}.

End Worlds.

(** ** Notions used in the statements *)

(** The attributes [_get_email_config] reads without a default. *)
Definition required_fields : list string :=
  ["smtp_server"; "smtp_port"; "smtp_username"; "smtp_password"].

(** The result of a send that went through. *)
Definition sent_result (to subject : string) : EmailResult :=
  {| recipient := to; subject := subject; message_sent := true; error := None;
     output := Some ("Email to " ++ to ++ " with subject '" ++ subject
                     ++ "' was successfully sent.") |}.

(** The result of a send that failed with the diagnostic [text]. *)
Definition failed_result (to subject text : string) : EmailResult :=
  {| recipient := to; subject := subject; message_sent := false;
     error := Some text; output := None |}.

(** The error text of [execute] when there is no configuration. *)
Definition config_missing : string :=
  "Email configuration is missing or incomplete in app config.".

(** An omitted list counts as the empty one. *)
Definition opt_list (o : option (list string)) : list string :=
  match o with
  | Some l => l
  | None => []
  end.

(** The message [execute] hands to the dispatcher. *)
Definition built_message (email_config : EmailConfig) (to subject body : string)
    (cc : option (list string)) (is_html : bool) : Message :=
  attach (message_headers email_config to subject cc)
    {| subtype := content_type is_html; payload := body |}.

(** Neither [to] nor [subject] holds a surrogate, so that [msg["To"]] and
    [msg["Subject"]] are plain strings. *)
Definition clean (to subject : string) : bool :=
  negb (has_surrogates to) && negb (has_surrogates subject).

(** The text a header value is shown with in an f-string, [None] when
    showing it raises. *)
Definition shown (value : string) : option string :=
  if has_surrogates value then header_str value else Some value.

(** The success entry [_send_email_async] writes, when both header values
    can be shown. *)
Definition success_entry (to subject : string) : option event :=
  match shown to, shown subject with
  | Some a, Some b =>
      Some (Log INFO ("Email sent successfully to " ++ a
                      ++ " with subject '" ++ b ++ "'"))
  | _, _ => None
  end.

(** The error of [execute] when [EmailResult] rejected what
    [_send_email_async] gave it. *)
Definition rejected_text : string :=
  "Failed to send email: " ++ str (validation_error "EmailResult").

(** What [_send_email_async] logs, after a session that ended with [o],
    before [EmailResult] rejects a [Header] for the second time. *)
Definition inner_logs (to subject : string) (o : outcome unit) : list event :=
  match o with
  | Return _ =>
      match success_entry to subject with
      | Some entry =>
          [entry;
           Log ERROR ("Error sending email: " ++ str (validation_error "EmailResult"))]
      | None => [Log ERROR ("Error sending email: " ++ str header_str_error)]
      end
  | Raise e => [Log ERROR ("Error sending email: " ++ str e)]
  end.

(** What [execute] makes of a session that ended with [o]: the outcome and
    the log entries. *)
Definition report (to subject : string) (o : outcome unit)
  : outcome EmailResult * list event :=
  match o with
  | Return _ =>
      if clean to subject then
        (Return (sent_result to subject),
         [Log INFO ("Email sent successfully to " ++ to
                    ++ " with subject '" ++ subject ++ "'")])
      else
        (Return (failed_result to subject rejected_text),
         (inner_logs to subject o ++ [Log ERROR rejected_text])%list)
  | Raise e =>
      if is_Exception e then
        if clean to subject then
          (Return (failed_result to subject ("Error sending email: " ++ str e)),
           [Log ERROR ("Error sending email: " ++ str e)])
        else
          (Return (failed_result to subject rejected_text),
           (inner_logs to subject o ++ [Log ERROR rejected_text])%list)
      else (Raise e, [])
  end.

(** The three calls of [_send] that depend on its arguments. *)
Definition connect_ev (c : EmailConfig) : event :=
  SmtpConnect (smtp_server c) (smtp_port c).

Definition login_ev (c : EmailConfig) : event :=
  SmtpLogin (smtp_username c) (smtp_password c).

Definition sendmail_ev (c : EmailConfig) (msg : Message) (recipients : list string) : event :=
  SmtpSendmail (smtp_username c) recipients msg.

(** The call sequences a session can consist of. *)
Definition sessions (c : EmailConfig) (msg : Message) (recipients : list string)
  : list (list event) :=
  if use_tls c then
    [ [connect_ev c];
      [connect_ev c; SmtpStartTLS; SmtpQuit];
      [connect_ev c; SmtpStartTLS; login_ev c; SmtpQuit];
      [connect_ev c; SmtpStartTLS; login_ev c; sendmail_ev c msg recipients; SmtpQuit] ]
  else
    [ [connect_ev c];
      [connect_ev c; login_ev c; SmtpQuit];
      [connect_ev c; login_ev c; sendmail_ev c msg recipients; SmtpQuit] ].

(** An event is a log entry or an SMTP call. *)
Definition is_smtp (ev : event) : bool :=
  match ev with
  | Log _ _ => false
  | _ => true
  end.

(** The SMTP calls of a trace. *)
Definition smtp_calls (tr : trace) : list event := filter is_smtp tr.

(** No address of [bcc] occurs in a header of [m]. *)
Definition bcc_hidden (bcc : list string) (m : Message) : Prop :=
  forall b k v, In b bcc -> In (k, v) (headers m) -> contains b v = false.

(** An event with the password blanked. *)
Definition redact (ev : event) : event :=
  match ev with
  | SmtpLogin user _ => SmtpLogin user ""
  | _ => ev
  end.

(** Two configurations that differ at most in the password. *)
Definition same_but_password (c1 c2 : EmailConfig) : Prop :=
  smtp_server c1 = smtp_server c2 /\ smtp_port c1 = smtp_port c2
  /\ smtp_username c1 = smtp_username c2 /\ use_tls c1 = use_tls c2.

(** The trace [final] continues the trace [t]. *)
Definition extends (final t : trace) : Prop :=
  exists rest, final = (t ++ rest)%list.

(** In a run that ended with the trace [final], the call [ev] was made when
    the trace was [h]. *)
Definition issued (final h : trace) (ev : event) : Prop :=
  exists rest, final = (h ++ ev :: rest)%list.

(** A computation that only adds to the trace. *)
Definition appending {A} (m : M A) : Prop :=
  forall t, extends (snd (m t)) t.

(** Two computations that, started on traces equal up to the password and
    run as parts of two runs that ended with [F1] and [F2], end alike: the
    same outcome, and traces equal up to the password. *)
Definition alike_within (F1 F2 : trace) {A} (m1 m2 : M A) : Prop :=
  forall t1 t2,
    map redact t1 = map redact t2 ->
    extends F1 (snd (m1 t1)) -> extends F2 (snd (m2 t2)) ->
    fst (m1 t1) = fst (m2 t2) /\ map redact (snd (m1 t1)) = map redact (snd (m2 t2)).

(** The log entries of a trace. *)
Definition log_entries (tr : trace) : list event :=
  filter (fun ev => negb (is_smtp ev)) tr.

(** ** Notions used in the further properties *)

(** The STARTTLS call of a session, when there is one. *)
Definition tls_steps (c : EmailConfig) : list event :=
  if use_tls c then [SmtpStartTLS] else [].

(** The calls of a session in which nothing fails. *)
Definition full_session (c : EmailConfig) (msg : Message) (recipients : list string)
  : list event :=
  (connect_ev c :: tls_steps c
   ++ [login_ev c; sendmail_ev c msg recipients; SmtpQuit])%list.

(** Every call of the session started after [tr] is answered, and the
    message can be flattened. *)
Definition session_accepted (w : World) (c : EmailConfig) (msg : Message)
    (recipients : list string) (tr : trace) : Prop :=
  let t1 := (tr ++ [connect_ev c])%list in
  let t2 := (t1 ++ tls_steps c)%list in
  let t3 := (t2 ++ [login_ev c])%list in
  let t4 := (t3 ++ [sendmail_ev c msg recipients])%list in
  smtp_reply w tr (connect_ev c) = None
  /\ (use_tls c = true -> smtp_reply w t1 SmtpStartTLS = None)
  /\ smtp_reply w t2 (login_ev c) = None
  /\ as_string_error w msg = None
  /\ smtp_reply w t3 (sendmail_ev c msg recipients) = None
  /\ smtp_reply w t4 SmtpQuit = None.

(** Every call of the session started after [tr] up to [sendmail] is
    answered: the message has been handed to the server. *)
Definition session_delivered (w : World) (c : EmailConfig) (msg : Message)
    (recipients : list string) (tr : trace) : Prop :=
  let t1 := (tr ++ [connect_ev c])%list in
  let t2 := (t1 ++ tls_steps c)%list in
  let t3 := (t2 ++ [login_ev c])%list in
  smtp_reply w tr (connect_ev c) = None
  /\ (use_tls c = true -> smtp_reply w t1 SmtpStartTLS = None)
  /\ smtp_reply w t2 (login_ev c) = None
  /\ as_string_error w msg = None
  /\ smtp_reply w t3 (sendmail_ev c msg recipients) = None.

(** How the [with] block is left ([SMTP.__exit__], which sends QUIT) in a
    session in which [sendmail] was called: the exception it raises, if
    any. *)
Definition quit_reply (w : World) (c : EmailConfig) (msg : Message)
    (recipients : list string) (tr : trace) : option exn :=
  smtp_reply w
    ((((tr ++ [connect_ev c]) ++ tls_steps c) ++ [login_ev c])
     ++ [sendmail_ev c msg recipients])%list
    SmtpQuit.

Definition is_sendmail (ev : event) : bool :=
  match ev with
  | SmtpSendmail _ _ _ => true
  | _ => false
  end.

Definition is_connect (ev : event) : bool :=
  match ev with
  | SmtpConnect _ _ => true
  | _ => false
  end.

(** The first required attribute, in the order [_get_email_config] reads
    them, that the section does not have. *)
Definition first_missing (ec : pyval) : option string :=
  find (fun name => negb (hasattr ec name)) required_fields.

(** The text of the success entry in the log. *)
Definition sent_log (to subject : string) : event :=
  Log INFO ("Email sent successfully to " ++ to ++ " with subject '" ++ subject ++ "'").

(** ** The test script [test_email_tool.py] *)

(** A line feed and a double quote. *)
Definition nl : string := String "010" EmptyString.
Definition dq : string := String "034" EmptyString.

(** The configuration snippet the script prints (lines 27 to 34). *)
Definition config_hint : string :=
  nl ++ "[email]" ++ nl
  ++ "smtp_server = " ++ dq ++ "smtp.example.com" ++ dq ++ nl
  ++ "smtp_port = 587" ++ nl
  ++ "smtp_username = " ++ dq ++ "your-email@example.com" ++ dq ++ nl
  ++ "smtp_password = " ++ dq ++ "your-password-or-app-password" ++ dq ++ nl
  ++ "use_tls = true" ++ nl
  ++ "        ".

(** The body of the test mail (lines 45 to 52). *)
Definition test_body : string :=
  nl ++ "Hello from OpenManus!" ++ nl
  ++ nl
  ++ "This is a test email sent using the EmailSender tool." ++ nl
  ++ nl
  ++ "Best regards," ++ nl
  ++ "OpenManus Agent" ++ nl
  ++ "        ".

Definition test_subject : string := "Test Email from OpenManus".

(** What the script gets from its terminal: [sys.argv], and the line that
    [input] would read ([None] at end of input). *)
Record Console : Type := mk_Console {
  argv : list string;
  stdin : option string
}.

(** How the script ends: it returns, an exception of the tool leaves it, or
    [input] raises [EOFError]. *)
Inductive script_end : Type :=
| Finished
| Crashed (e : exn)
| EndOfInput.

Record script_run : Type := mk_script_run {
  ended : script_end;
  (** whether [input] was called *)
  prompted : bool;
  script_trace : trace
}.

(** [recipient = input(..) if len(sys.argv) < 2 else sys.argv[1]] *)
Definition read_recipient (con : Console) : option string :=
  if (length (argv con) <? 2)%nat then stdin con else nth_error (argv con) 1.

(** [test_email_sender] of the script, run from an empty trace.  The tool
    has a [_get_email_config] method, so the first test of the [if] is
    false and the method is called. *)
Definition test_email_sender (w : World) (con : Console) : script_run :=
  match _get_email_config w [] with
  | (Raise e, tr) => {| ended := Crashed e; prompted := false; script_trace := tr |}
  | (Return None, tr) =>
      {| ended := Finished; prompted := false;
         script_trace :=
           (tr ++ [Log ERROR "Email configuration is missing or incomplete in config.toml";
                   Log INFO "Please add the following to your config/config.toml file:";
                   Log INFO config_hint])%list |}
  | (Return (Some _), tr) =>
      let asked := (length (argv con) <? 2)%nat in
      match read_recipient con with
      | None => {| ended := EndOfInput; prompted := asked; script_trace := tr |}
      | Some recipient =>
          match (logger INFO ("Sending test email to " ++ recipient ++ "...") ;;
                 execute w recipient test_subject test_body None None false) tr with
          | (Raise e, tr') =>
              {| ended := Crashed e; prompted := asked; script_trace := tr' |}
          | (Return result, tr') =>
              {| ended := Finished; prompted := asked;
                 script_trace :=
                   (tr' ++ [if message_sent result
                            then Log INFO "Email sent successfully!"
                            else Log ERROR ("Failed to send email: "
                                            ++ fmt (error result))])%list |}
          end
      end
  end.

(** * Properties *)

(** ** Running the monad *)

Ltac run :=
  unfold bind, try_except, ret, raise, logger, emit, getattr in *; simpl in *.

(** ** Configuration resolution *)

(** The resolver only appends to the trace, and what it does is the same
    whatever happened before. *)
Lemma get_email_config_frame (w : World) (tr : trace) :
  _get_email_config w tr =
  (fst (_get_email_config w []), (tr ++ snd (_get_email_config w []))%list).
Proof.
  unfold _get_email_config, EmailConfig_new, hasattr. run.
  destruct (lookup_attr (config w) "email_config") as [ec|]; simpl;
    [|reflexivity].
  destruct (lookup_attr ec "smtp_server") as [server|]; simpl; [|reflexivity].
  destruct (lookup_attr ec "smtp_port") as [port|]; simpl; [|reflexivity].
  destruct (lookup_attr ec "smtp_username") as [username|]; simpl; [|reflexivity].
  destruct (lookup_attr ec "smtp_password") as [password|]; simpl; [|reflexivity].
  destruct (validate_str w server), (validate_int w port),
    (validate_str w username), (validate_str w password),
    (validate_bool w (getattr_default ec "use_tls" (PyBool true)));
    simpl; rewrite app_nil_r; reflexivity.
Qed.

(** The three ways the resolver can end: a configuration and an untouched
    trace, no configuration and one error entry in the log, or pydantic's
    [ValidationError], which is not handled. *)
Lemma get_email_config_cases (w : World) (tr : trace) :
  (exists c, _get_email_config w tr = (Return (Some c), tr)) \/
  (exists text, _get_email_config w tr = (Return None, (tr ++ [Log ERROR text])%list)) \/
  _get_email_config w tr = (Raise (validation_error "EmailConfig"), tr).
Proof.
  rewrite get_email_config_frame.
  unfold _get_email_config, EmailConfig_new, hasattr. run.
  destruct (lookup_attr (config w) "email_config") as [ec|]; simpl;
    [|right; left; eexists; reflexivity].
  destruct (lookup_attr ec "smtp_server") as [server|]; simpl;
    [|right; left; eexists; reflexivity].
  destruct (lookup_attr ec "smtp_port") as [port|]; simpl;
    [|right; left; eexists; reflexivity].
  destruct (lookup_attr ec "smtp_username") as [username|]; simpl;
    [|right; left; eexists; reflexivity].
  destruct (lookup_attr ec "smtp_password") as [password|]; simpl;
    [|right; left; eexists; reflexivity].
  destruct (validate_str w server), (validate_int w port),
    (validate_str w username), (validate_str w password),
    (validate_bool w (getattr_default ec "use_tls" (PyBool true)));
    simpl; rewrite app_nil_r; try (right; right; reflexivity).
  left; eexists; reflexivity.
Qed.

Lemma get_email_config_Some (w : World) (tr tr1 : trace) (c : EmailConfig) :
  _get_email_config w tr = (Return (Some c), tr1) ->
  tr1 = tr /\ forall tr', _get_email_config w tr' = (Return (Some c), tr').
Proof.
  intros H.
  destruct (get_email_config_cases w tr) as [[c' Hc] | [[text Hn] | Hr]];
    rewrite H in *; try discriminate.
  inversion Hc; subst. split; [reflexivity|].
  intros tr'. rewrite get_email_config_frame.
  rewrite (get_email_config_frame w tr) in H.
  destruct (_get_email_config w []) as [o evs]; simpl in *.
  inversion H as [[Ho Hevs]].
  assert (evs = []) as ->.
  { apply (app_inv_head tr). rewrite app_nil_r. exact Hevs. }
  rewrite app_nil_r. reflexivity.
Qed.

Lemma get_email_config_None (w : World) (tr tr1 : trace) :
  _get_email_config w tr = (Return None, tr1) ->
  exists text, tr1 = (tr ++ [Log ERROR text])%list.
Proof.
  intros H.
  destruct (get_email_config_cases w tr) as [[c' Hc] | [[text Hn] | Hr]];
    rewrite H in *; try discriminate.
  inversion Hn; subst. eexists; reflexivity.
Qed.

(** ** Results *)

Lemma populate_output_error (r : EmailResult) (c : ascii) (s : string) :
  error r = Some (String c s) -> populate_output r = r.
Proof.
  intros H. unfold populate_output. rewrite H. reflexivity.
Qed.

Lemma EmailResult_new_sent (to subject : string) (tr : trace) :
  EmailResult_new (Some to) (Some subject) true None tr
  = (Return (sent_result to subject), tr).
Proof. reflexivity. Qed.

Lemma EmailResult_new_failed (to subject : string) (c : ascii) (s : string) (tr : trace) :
  EmailResult_new (Some to) (Some subject) false (Some (String c s)) tr
  = (Return (failed_result to subject (String c s)), tr).
Proof. reflexivity. Qed.

(** ** The message and the recipients *)

Lemma extend_if_app (l : list string) (o : option (list string)) :
  extend_if l o = (l ++ opt_list o)%list.
Proof.
  destruct o as [[|a r]|]; simpl; try rewrite app_nil_r; reflexivity.
Qed.

Lemma recipient_list_app (to : string) (cc bcc : option (list string)) :
  recipient_list to cc bcc = (([to] ++ opt_list cc) ++ opt_list bcc)%list.
Proof.
  unfold recipient_list. rewrite !extend_if_app. reflexivity.
Qed.

Lemma built_message_headers (c : EmailConfig) (to subject body : string)
    (cc : option (list string)) (is_html : bool) :
  headers (built_message c to subject body cc is_html) =
  ([("Content-Type", "multipart/mixed"); ("MIME-Version", "1.0");
    ("From", smtp_username c); ("To", to); ("Subject", subject)]
   ++ (if truthy_list cc then [("Cc", join ", " (opt_list cc))] else []))%list.
Proof.
  destruct cc as [[|a l]|]; reflexivity.
Qed.

Lemma built_message_To (c : EmailConfig) (to subject body : string)
    (cc : option (list string)) (is_html : bool) :
  msg_get (built_message c to subject body cc is_html) "To" = Some to.
Proof.
  destruct cc as [[|a l]|]; reflexivity.
Qed.

Lemma built_message_Subject (c : EmailConfig) (to subject body : string)
    (cc : option (list string)) (is_html : bool) :
  msg_get (built_message c to subject body cc is_html) "Subject" = Some subject.
Proof.
  destruct cc as [[|a l]|]; reflexivity.
Qed.

(** ** The dispatcher and [execute], unfolded *)

Lemma built_message_getitem (c : EmailConfig) (to subject body : string)
    (cc : option (list string)) (is_html : bool) :
  msg_getitem (built_message c to subject body cc is_html) "To"
  = Some (header_fetch_parse to)
  /\ msg_getitem (built_message c to subject body cc is_html) "Subject"
     = Some (header_fetch_parse subject).
Proof.
  unfold msg_getitem. rewrite built_message_To, built_message_Subject.
  split; reflexivity.
Qed.

Lemma execute_eq (w : World) (to subject body : string)
    (cc bcc : option (list string)) (is_html : bool) (tr : trace) :
  execute w to subject body cc bcc is_html tr =
  match _get_email_config w tr with
  | (Raise e, tr1) => (Raise e, tr1)
  | (Return None, tr1) => (Return (failed_result to subject config_missing), tr1)
  | (Return (Some c), tr1) =>
      match mime_text_error w body (content_type is_html) with
      | Some e => (Raise e, tr1)
      | None =>
          match _send w c (built_message c to subject body cc is_html)
                  (recipient_list to cc bcc) tr1 with
          | (o, tr2) =>
              (fst (report to subject o), (tr2 ++ snd (report to subject o))%list)
          end
      end
  end.
Proof.
  unfold execute, bind at 1.
  destruct (_get_email_config w tr) as [[[c|]|e] tr1]; try reflexivity.
  unfold MIMEText_new, bind.
  destruct (mime_text_error w body (content_type is_html)) as [e|]; [reflexivity|].
  unfold ret, try_except. fold (built_message c to subject body cc is_html).
  unfold _send_email_async.
  destruct (built_message_getitem c to subject body cc is_html) as [-> ->].
  unfold report, inner_logs, success_entry, shown, clean, header_fetch_parse,
    header_text, valid_str, rejected_text.
  run.
  destruct (_send w c (built_message c to subject body cc is_html)
              (recipient_list to cc bcc) tr1) as [[[]|e] tr2]; simpl.
  - destruct (has_surrogates to), (has_surrogates subject); simpl;
      try destruct (header_str to); try destruct (header_str subject); simpl;
      rewrite <- ?app_assoc; reflexivity.
  - destruct (is_Exception e) eqn:He; simpl; [|rewrite He, app_nil_r; reflexivity].
    destruct (has_surrogates to), (has_surrogates subject); simpl;
      rewrite <- ?app_assoc; reflexivity.
Qed.

(** ** The SMTP session *)

Section Session.

Variable w : World.
Variable c : EmailConfig.
Variable msg : Message.
Variable recipients : list string.

Ltac session_step :=
  match goal with
  | |- context [smtp_reply w ?t ?e] => destruct (smtp_reply w t e) eqn:?
  | |- context [as_string_error w ?m] => destruct (as_string_error w m) eqn:?
  end.

Ltac run_session :=
  unfold _send, with_SMTP, smtp_call, as_string, bind, ret, raise,
    connect_ev, login_ev, sendmail_ev.

Lemma send_trace (tr : trace) :
  exists o evs,
    _send w c msg recipients tr = (o, (tr ++ evs)%list)
    /\ In evs (sessions c msg recipients).
Proof.
  unfold sessions. run_session.
  destruct (use_tls c); repeat session_step;
    rewrite <- ?app_assoc; simpl;
    do 2 eexists; (split; [reflexivity | simpl; tauto]).
Qed.

(** When every call is answered and the message can be flattened, the
    whole session takes place and [_send] returns. *)
Lemma send_accepted (tr : trace) :
  (forall h ev, smtp_reply w h ev = None) ->
  as_string_error w msg = None ->
  _send w c msg recipients tr =
  (Return tt,
   (tr ++ connect_ev c
       :: (if use_tls c then [SmtpStartTLS] else [])
       ++ [login_ev c; sendmail_ev c msg recipients; SmtpQuit])%list).
Proof.
  intros Hr Ha. run_session.
  destruct (use_tls c); unfold smtp_call; rewrite ?Hr, ?Ha; simpl;
    rewrite ?Hr, ?Ha; simpl; rewrite ?Hr; rewrite <- ?app_assoc; reflexivity.
Qed.

(** A failed STARTTLS ends the session: QUIT is all that follows. *)
Lemma send_starttls_failed (tr : trace) (e : exn) :
  use_tls c = true ->
  smtp_reply w tr (connect_ev c) = None ->
  smtp_reply w (tr ++ [connect_ev c])%list SmtpStartTLS = Some e ->
  snd (_send w c msg recipients tr)
  = (tr ++ [connect_ev c; SmtpStartTLS; SmtpQuit])%list.
Proof.
  intros Htls Hc Ht. run_session. unfold connect_ev in *.
  rewrite Htls, Hc. simpl. unfold smtp_call. rewrite Ht.
  session_step; simpl; rewrite <- ?app_assoc; reflexivity.
Qed.

Lemma sessions_sendmail (evs : list event) (f : string) (r : list string) (m : Message) :
  In evs (sessions c msg recipients) ->
  In (SmtpSendmail f r m) evs ->
  f = smtp_username c /\ r = recipients /\ m = msg.
Proof.
  unfold sessions, connect_ev, login_ev, sendmail_ev.
  intros Hs Hin.
  destruct (use_tls c); simpl in Hs;
    repeat (destruct Hs as [<-|Hs]; [simpl in Hin|]); try contradiction;
    repeat (destruct Hin as [Hin|Hin]; try discriminate; try contradiction);
    inversion Hin; auto.
Qed.

End Session.

(** ** The contract of [execute] *)

(** C1 (as stated, refuted).  [execute] does raise: a configuration whose
    port is [None] makes pydantic reject it with a [ValidationError] that
    [_get_email_config] does not handle, and a body that [MIMEText] cannot
    encode raises before the [try] block is entered (the same world sends a
    body it can encode). *)
Lemma execute_raises :
  fst (execute Worlds.port_is_None "a@x.com" "Hi" "hello" None None false [])
  = Raise (validation_error "EmailConfig")
  /\ fst (execute Worlds.strict_mime "a@x.com" "Hi" Worlds.lone_surrogate None None
            false [])
     = Raise (mk_exn UnicodeEncodeError
                "'utf-8' codec can't encode character '\ud800': surrogates not allowed")
  /\ fst (execute Worlds.strict_mime "a@x.com" "Hi" "hello" None None false [])
     = Return (sent_result "a@x.com" "Hi").
Proof. repeat split. Qed.

(** The entries [execute] adds after the session are log entries. *)
Lemma report_logs (to subject : string) (o : outcome unit) :
  smtp_calls (snd (report to subject o)) = []
  /\ forall ev, In ev (snd (report to subject o)) -> is_smtp ev = false.
Proof.
  unfold report, inner_logs, success_entry.
  destruct o as [[]|e]; [|destruct (is_Exception e)];
    destruct (clean to subject); simpl;
    try destruct (shown to); try destruct (shown subject); simpl;
    (split; [reflexivity|]); intros ev H;
    repeat (destruct H as [<-|H]; [reflexivity|]); contradiction.
Qed.

(** With plain header values the report is the success result after a
    session that returned and the session's exception after one that
    raised. *)
Lemma report_clean (to subject : string) (o : outcome unit) :
  clean to subject = true ->
  report to subject o =
  match o with
  | Return _ =>
      (Return (sent_result to subject),
       [Log INFO ("Email sent successfully to " ++ to
                  ++ " with subject '" ++ subject ++ "'")])
  | Raise e =>
      if is_Exception e then
        (Return (failed_result to subject ("Error sending email: " ++ str e)),
         [Log ERROR ("Error sending email: " ++ str e)])
      else (Raise e, [])
  end.
Proof.
  intros H. unfold report. rewrite H. destruct o; reflexivity.
Qed.

(** C1 (amended).  When the configuration resolver returns (with or without
    a configuration), [MIMEText] accepts the body and the SMTP session raises
    nothing outside [Exception], [execute] returns an [EmailResult].  Every
    exception of the session is turned into a result with
    [message_sent = false], no output and an error that is not empty; when
    neither [to] nor [subject] holds a surrogate, the error is
    ["Error sending email: "] followed by the text of the exception. *)
Theorem execute_returns (w : World) (to subj body : string)
    (cc bcc : option (list string)) (is_html : bool) (tr tr1 : trace)
    (oc : option EmailConfig) :
  _get_email_config w tr = (Return oc, tr1) ->
  mime_text_error w body (content_type is_html) = None ->
  (forall c e tr2, oc = Some c ->
     _send w c (built_message c to subj body cc is_html)
       (recipient_list to cc bcc) tr1 = (Raise e, tr2) ->
     is_Exception e = true) ->
  exists r tr',
    execute w to subj body cc bcc is_html tr = (Return r, tr')
    /\ (forall c e tr2, oc = Some c ->
          _send w c (built_message c to subj body cc is_html)
            (recipient_list to cc bcc) tr1 = (Raise e, tr2) ->
          message_sent r = false
          /\ (clean to subj = true ->
              r = failed_result to subj ("Error sending email: " ++ str e)))
    /\ (message_sent r = false ->
        exists s, error r = Some s /\ s <> "" /\ output r = None).
Proof.
  intros Hcfg Hmime Hexc. rewrite execute_eq, Hcfg.
  destruct oc as [c|].
  - rewrite Hmime.
    destruct (_send w c (built_message c to subj body cc is_html)
                (recipient_list to cc bcc) tr1) as [[[]|e] tr2] eqn:Hsend.
    + unfold report. destruct (clean to subj); simpl;
        (do 2 eexists; split; [reflexivity|]; split;
         [intros c' e tr3 Hc Hs; inversion Hc; subst c'; rewrite Hsend in Hs;
          discriminate|]).
      * discriminate.
      * intros _. eexists. split; [reflexivity|]. split; [discriminate|reflexivity].
    + unfold report. rewrite (Hexc c e tr2 eq_refl Hsend).
      destruct (clean to subj); simpl;
        (do 2 eexists; split; [reflexivity|]; split;
         [intros c' e' tr3 Hc Hs; inversion Hc; subst c'; rewrite Hsend in Hs;
          inversion Hs; subst; split; [reflexivity|]
         |intros _; eexists; split; [reflexivity|];
          split; [discriminate|reflexivity]]).
      * intros _. reflexivity.
      * discriminate.
  - do 2 eexists. split; [reflexivity|]. split.
    + intros c e tr2 Hc. discriminate.
    + intros _. eexists. split; [reflexivity|]. split; [discriminate|reflexivity].
Qed.

(** The amended C1 at a server that rejects the login. *)
Lemma execute_returns_witness :
  exists r tr',
    execute Worlds.echoing "a@x.com" "Hi" "hello" None None false [] = (Return r, tr')
    /\ message_sent r = false
    /\ error r = Some "Error sending email: (535, b'bad credentials: hunter2')".
Proof.
  destruct (execute_returns Worlds.echoing "a@x.com" "Hi" "hello" None None false [] []
              (Some (Worlds.settings "hunter2")))
    as (r & tr' & Hrun & Hfail & _).
  - reflexivity.
  - reflexivity.
  - intros c e tr2 Hc Hs. inversion Hc; subst c. vm_compute in Hs.
    inversion Hs. reflexivity.
  - exists r, tr'. split; [exact Hrun|].
    destruct (Hfail _ _ _ eq_refl eq_refl) as [Hsent Hr].
    split; [exact Hsent|]. rewrite (Hr eq_refl). reflexivity.
Defined.

(** C2.  When the resolver returns no configuration, [execute] returns at
    once the failure result with the fixed, non-empty error text; the trace
    gains the resolver's one log entry and no SMTP call. *)
Theorem execute_config_missing (w : World) (to subject body : string)
    (cc bcc : option (list string)) (is_html : bool) (tr tr1 : trace) :
  _get_email_config w tr = (Return None, tr1) ->
  execute w to subject body cc bcc is_html tr
  = (Return {| recipient := to; subject := subject; message_sent := false;
               error := Some "Email configuration is missing or incomplete in app config.";
               output := None |}, tr1)
  /\ (exists text, tr1 = (tr ++ [Log ERROR text])%list)
  /\ smtp_calls (snd (execute w to subject body cc bcc is_html tr)) = smtp_calls tr.
Proof.
  intros Hcfg. rewrite execute_eq, Hcfg.
  destruct (get_email_config_None w tr tr1 Hcfg) as [text ->].
  split; [reflexivity|]. split; [eexists; reflexivity|].
  simpl. unfold smtp_calls. rewrite filter_app. simpl. apply app_nil_r.
Qed.

(** C2 at a configuration object without an [email_config] attribute. *)
Lemma execute_config_missing_witness :
  execute Worlds.unconfigured "a@x.com" "Hi" "hello" None None false []
  = (Return {| recipient := "a@x.com"; subject := "Hi"; message_sent := false;
               error := Some "Email configuration is missing or incomplete in app config.";
               output := None |},
     [Log ERROR "Email configuration not found in app config"]).
Proof.
  apply (execute_config_missing Worlds.unconfigured "a@x.com" "Hi" "hello"
           None None false [] [Log ERROR "Email configuration not found in app config"]).
  reflexivity.
Defined.




(** ** What reaches the transport *)

(** [execute] only appends to the trace, and every [sendmail] call it makes
    carries the configured user name as envelope sender, the recipient list
    and the message built from the arguments. *)
Lemma execute_sendmail (w : World) (to subject body : string)
    (cc bcc : option (list string)) (is_html : bool) (tr : trace) :
  exists evs,
    snd (execute w to subject body cc bcc is_html tr) = (tr ++ evs)%list
    /\ forall f r m,
         In (SmtpSendmail f r m) evs ->
         exists c,
           _get_email_config w tr = (Return (Some c), tr)
           /\ f = smtp_username c
           /\ r = recipient_list to cc bcc
           /\ m = built_message c to subject body cc is_html.
Proof.
  rewrite execute_eq.
  destruct (get_email_config_cases w tr) as [[c Hc] | [[text Hn] | Hr]].
  - rewrite Hc.
    destruct (mime_text_error w body (content_type is_html)).
    { exists []. rewrite app_nil_r. split; [reflexivity|]. intros f r m []. }
    destruct (send_trace w c (built_message c to subject body cc is_html)
                (recipient_list to cc bcc) tr) as (o & evs & Heq & Hin).
    rewrite Heq.
    assert (Hargs : forall l f r m, In (SmtpSendmail f r m) (evs ++ l)%list ->
                      (forall x, In x l -> is_smtp x = false) ->
                      exists c0, (Return (Some c), tr) = (Return (Some c0), tr)
                        /\ f = smtp_username c0
                        /\ r = recipient_list to cc bcc
                        /\ m = built_message c0 to subject body cc is_html).
    { intros l f r m H Hl. apply in_app_or in H. destruct H as [H|H].
      - exists c. split; [reflexivity|].
        exact (sessions_sendmail _ _ _ _ _ _ _ Hin H).
      - apply Hl in H. discriminate. }
    simpl. eexists. rewrite <- app_assoc. split; [reflexivity|].
    intros f r m H. apply (Hargs _ f r m H).
    apply (proj2 (report_logs to subject o)).
  - rewrite Hn. simpl. eexists. split; [reflexivity|].
    intros f r m [H|[]]. discriminate.
  - rewrite Hr. simpl. exists []. rewrite app_nil_r. split; [reflexivity|].
    intros f r m [].
Qed.

(** With a configuration, an accepted body and a server that answers every
    call, [execute] runs the whole session and reports success. *)
Lemma execute_accepted (w : World) (to subject body : string)
    (cc bcc : option (list string)) (is_html : bool) (tr tr1 : trace)
    (c : EmailConfig) :
  _get_email_config w tr = (Return (Some c), tr1) ->
  mime_text_error w body (content_type is_html) = None ->
  clean to subject = true ->
  as_string_error w (built_message c to subject body cc is_html) = None ->
  (forall h ev, smtp_reply w h ev = None) ->
  execute w to subject body cc bcc is_html tr =
  (Return (sent_result to subject),
   (tr ++ SmtpConnect (smtp_server c) (smtp_port c)
       :: (if use_tls c then [SmtpStartTLS] else [])
       ++ [SmtpLogin (smtp_username c) (smtp_password c);
           SmtpSendmail (smtp_username c) (recipient_list to cc bcc)
             (built_message c to subject body cc is_html);
           SmtpQuit;
           Log INFO ("Email sent successfully to " ++ to
                     ++ " with subject '" ++ subject ++ "'")])%list).
Proof.
  intros Hcfg Hmime Hclean Has Hr.
  destruct (get_email_config_Some w tr tr1 c Hcfg) as [-> _].
  rewrite execute_eq, Hcfg, Hmime, (send_accepted w c _ _ tr Hr Has),
    (report_clean _ _ _ Hclean).
  unfold connect_ev, login_ev, sendmail_ev.
  destruct (use_tls c); simpl; rewrite <- app_assoc; reflexivity.
Qed.

(** C4 (as stated, refuted).  An address given both as [to] and in [bcc] is
    in the To header of the message that is sent. *)
Lemma bcc_address_in_header :
  exists f r m,
    In (SmtpSendmail f r m)
      (snd (execute Worlds.working "a@x.com" "Hi" "hello" None (Some ["a@x.com"])
              false []))
    /\ In ("To", "a@x.com") (headers m)
    /\ ~ bcc_hidden ["a@x.com"] m.
Proof.
  do 3 eexists. split; [|split].
  - vm_compute. right. right. right. left. reflexivity.
  - simpl. auto.
  - intros H. specialize (H "a@x.com" "To" "a@x.com").
    simpl in H. discriminate H; auto.
Qed.

(** With a configuration, an accepted body and a server that answers every
    call, [execute] calls [sendmail], whatever it reports afterwards. *)
Lemma execute_calls_sendmail (w : World) (to subject body : string)
    (cc bcc : option (list string)) (is_html : bool) (tr tr1 : trace)
    (c : EmailConfig) :
  _get_email_config w tr = (Return (Some c), tr1) ->
  mime_text_error w body (content_type is_html) = None ->
  as_string_error w (built_message c to subject body cc is_html) = None ->
  (forall h ev, smtp_reply w h ev = None) ->
  In (SmtpSendmail (smtp_username c) (recipient_list to cc bcc)
        (built_message c to subject body cc is_html))
     (snd (execute w to subject body cc bcc is_html tr)).
Proof.
  intros Hcfg Hmime Has Hr.
  destruct (get_email_config_Some w tr tr1 c Hcfg) as [-> _].
  rewrite execute_eq, Hcfg, Hmime, (send_accepted w c _ _ tr Hr Has).
  unfold connect_ev, login_ev, sendmail_ev. simpl.
  apply in_or_app. left. apply in_or_app. right. right.
  apply in_or_app. right. simpl. auto.
Qed.

(** C4 (amended).  In every [sendmail] call of [execute] the recipient list
    holds every address of [bcc], and the header fields of the message that
    [execute] has built and hands to [as_string] are the two the library
    sets (Content-Type and MIME-Version) followed by From, To, Subject and,
    when [cc] is not empty, Cc, with the configured user name, [to],
    [subject] and the joined [cc] as values: [bcc] takes no part in them, so
    an address of [bcc] occurs in a header only where one of those values
    holds it.  When the server answers every call, the call is made. *)
Theorem bcc_only_in_recipients (w : World) (to subject body : string)
    (cc bcc : option (list string)) (is_html : bool) (tr : trace) :
  (exists evs,
     snd (execute w to subject body cc bcc is_html tr) = (tr ++ evs)%list
     /\ forall f r m,
          In (SmtpSendmail f r m) evs ->
          exists c,
            _get_email_config w tr = (Return (Some c), tr)
            /\ (forall b, In b (opt_list bcc) -> In b r)
            /\ headers m
               = ([("Content-Type", "multipart/mixed"); ("MIME-Version", "1.0");
                   ("From", smtp_username c); ("To", to); ("Subject", subject)]
                  ++ (if truthy_list cc then [("Cc", join ", " (opt_list cc))] else []))%list
            /\ (forall b k v,
                  In b (opt_list bcc) -> In (k, v) (headers m) ->
                  contains b v = true ->
                  contains b "multipart/mixed" = true \/ contains b "1.0" = true
                  \/ contains b (smtp_username c) = true \/ contains b to = true
                  \/ contains b subject = true
                  \/ contains b (join ", " (opt_list cc)) = true))
  /\ (forall c tr1,
        _get_email_config w tr = (Return (Some c), tr1) ->
        mime_text_error w body (content_type is_html) = None ->
        as_string_error w (built_message c to subject body cc is_html) = None ->
        (forall h ev, smtp_reply w h ev = None) ->
        In (SmtpSendmail (smtp_username c) (recipient_list to cc bcc)
              (built_message c to subject body cc is_html))
           (snd (execute w to subject body cc bcc is_html tr))).
Proof.
  split.
  - destruct (execute_sendmail w to subject body cc bcc is_html tr)
      as (evs & Htr & Hargs).
    exists evs. split; [exact Htr|].
    intros f r m Hin. destruct (Hargs f r m Hin) as (c & Hc & -> & -> & ->).
    exists c. split; [exact Hc|]. split; [|split].
    + intros b Hb. rewrite recipient_list_app. apply in_or_app. right. exact Hb.
    + apply built_message_headers.
    + intros b k v _ Hkv Hv. rewrite built_message_headers in Hkv.
      apply in_app_or in Hkv. destruct Hkv as [Hkv|Hkv].
      * simpl in Hkv.
        destruct Hkv as [Hkv|[Hkv|[Hkv|[Hkv|[Hkv|[]]]]]]; inversion Hkv; subst;
          auto 7.
      * destruct (truthy_list cc); simpl in Hkv; [|contradiction].
        destruct Hkv as [Hkv|[]]. inversion Hkv; subst; auto 7.
  - intros c tr1. apply execute_calls_sendmail.
Qed.

(** The amended C4 at a server that accepts every call. *)
Lemma bcc_only_in_recipients_witness :
  In (SmtpSendmail "agent@example.com" ["a@x.com"; "c@x.com"]
        {| headers := [("Content-Type", "multipart/mixed"); ("MIME-Version", "1.0");
                       ("From", "agent@example.com"); ("To", "a@x.com");
                       ("Subject", "Hi")];
           parts := [{| subtype := "plain"; payload := "hello" |}] |})
     (snd (execute Worlds.working "a@x.com" "Hi" "hello" None (Some ["c@x.com"]) false [])).
Proof.
  apply (proj2 (bcc_only_in_recipients Worlds.working "a@x.com" "Hi" "hello" None
                  (Some ["c@x.com"]) false [])
           (Worlds.settings "hunter2") []).
  - reflexivity.
  - reflexivity.
  - reflexivity.
  - intros h ev. reflexivity.
Defined.

(** C5.  Every [sendmail] call of [execute] gets the recipient list
    [[to] ++ cc ++ bcc] (an omitted list counting as empty); the message has
    a Cc header exactly when [cc] is not empty, holding the addresses of [cc]
    joined by [", "], and its one part has subtype ["plain"] or ["html"] as
    [is_html] says.  For the call of the scenario the whole trace is given. *)
Theorem transport_arguments :
  (forall (w : World) (to subject body : string) (cc bcc : option (list string))
          (is_html : bool) (tr : trace),
      exists evs,
        snd (execute w to subject body cc bcc is_html tr) = (tr ++ evs)%list
        /\ forall f r m,
             In (SmtpSendmail f r m) evs ->
             r = ([to] ++ opt_list cc ++ opt_list bcc)%list
             /\ msg_get m "Cc"
                = (if truthy_list cc then Some (join ", " (opt_list cc)) else None)
             /\ parts m = [{| subtype := if is_html then "html" else "plain";
                              payload := body |}])
  /\ execute Worlds.working "a@x.com" "Hi" "hello" (Some ["b@x.com"]) (Some ["c@x.com"])
       false []
     = (Return (sent_result "a@x.com" "Hi"),
        [SmtpConnect "smtp.example.com" 587;
         SmtpStartTLS;
         SmtpLogin "agent@example.com" "hunter2";
         SmtpSendmail "agent@example.com" ["a@x.com"; "b@x.com"; "c@x.com"]
           {| headers := [("Content-Type", "multipart/mixed");
                          ("MIME-Version", "1.0");
                          ("From", "agent@example.com"); ("To", "a@x.com");
                          ("Subject", "Hi"); ("Cc", "b@x.com")];
              parts := [{| subtype := "plain"; payload := "hello" |}] |};
         SmtpQuit;
         Log INFO "Email sent successfully to a@x.com with subject 'Hi'"]).
Proof.
  split; [|reflexivity].
  intros w to subject body cc bcc is_html tr.
  destruct (execute_sendmail w to subject body cc bcc is_html tr)
    as (evs & Htr & Hargs).
  exists evs. split; [exact Htr|].
  intros f r m Hin. destruct (Hargs f r m Hin) as (c & Hc & -> & -> & ->).
  split; [|split].
  - rewrite recipient_list_app, <- app_assoc. reflexivity.
  - destruct cc as [[|a l]|]; reflexivity.
  - destruct cc as [[|a l]|], is_html; reflexivity.
Qed.

(** ** The configuration resolver *)

(** C6 (as stated, refuted).  All four fields are present and the port is
    [None], which no [int] field accepts: the resolver raises pydantic's
    [ValidationError] instead of returning a failure value. *)
Lemma get_email_config_raises :
  lookup_attr (config Worlds.port_is_None) "email_config"
  = Some (Worlds.section PyNone (PyStr "hunter2"))
  /\ lookup_attr (Worlds.section PyNone (PyStr "hunter2")) "smtp_port" = Some PyNone
  /\ validate_int Worlds.port_is_None PyNone = None
  /\ _get_email_config Worlds.port_is_None []
     = (Raise (validation_error "EmailConfig"), []).
Proof. repeat split. Qed.

(** When the four required attributes are present and pydantic rejects one
    of the five values, the resolver raises [ValidationError]. *)
Lemma get_email_config_rejected (w : World) (tr : trace)
    (ec server port username password : pyval) :
  lookup_attr (config w) "email_config" = Some ec ->
  lookup_attr ec "smtp_server" = Some server ->
  lookup_attr ec "smtp_port" = Some port ->
  lookup_attr ec "smtp_username" = Some username ->
  lookup_attr ec "smtp_password" = Some password ->
  validate_str w server = None \/ validate_int w port = None
  \/ validate_str w username = None \/ validate_str w password = None
  \/ validate_bool w (getattr_default ec "use_tls" (PyBool true)) = None ->
  _get_email_config w tr = (Raise (validation_error "EmailConfig"), tr).
Proof.
  intros Hec H1 H2 H3 H4 Hbad.
  unfold _get_email_config, EmailConfig_new, hasattr. run.
  rewrite Hec. simpl. rewrite H1. simpl. rewrite H2. simpl.
  rewrite H3. simpl. rewrite H4. simpl.
  destruct (validate_str w server), (validate_int w port),
    (validate_str w username), (validate_str w password),
    (validate_bool w (getattr_default ec "use_tls" (PyBool true)));
    try reflexivity.
  exfalso. destruct Hbad as [H|[H|[H|[H|H]]]]; discriminate.
Qed.

(** C6 (amended).  When the configuration object has no [email_config]
    attribute, or the section lacks one of the four required attributes
    (whatever the others hold), the resolver returns [None], leaves one
    error entry in the log and raises nothing. *)
Theorem get_email_config_absent (w : World) (tr : trace) :
  hasattr (config w) "email_config" = false
  \/ (exists ec name,
        lookup_attr (config w) "email_config" = Some ec
        /\ In name required_fields
        /\ lookup_attr ec name = None) ->
  exists text,
    _get_email_config w tr = (Return None, (tr ++ [Log ERROR text])%list).
Proof.
  intros [Hno | (ec & name & Hec & Hin & Hname)].
  - unfold _get_email_config. rewrite Hno. run. eexists. reflexivity.
  - unfold _get_email_config, hasattr. run. rewrite Hec. simpl.
    destruct (lookup_attr ec "smtp_server") eqn:H1; simpl; [|eexists; reflexivity].
    destruct (lookup_attr ec "smtp_port") eqn:H2; simpl; [|eexists; reflexivity].
    destruct (lookup_attr ec "smtp_username") eqn:H3; simpl; [|eexists; reflexivity].
    destruct (lookup_attr ec "smtp_password") eqn:H4; simpl; [|eexists; reflexivity].
    exfalso. simpl in Hin.
    destruct Hin as [<-|[<-|[<-|[<-|[]]]]]; congruence.
Qed.

(** The amended C6 at a section without [smtp_password]. *)
Lemma get_email_config_absent_witness :
  exists text,
    _get_email_config Worlds.no_password []
    = (Return None, [Log ERROR text]).
Proof.
  apply (get_email_config_absent Worlds.no_password []).
  right. eexists. exists "smtp_password".
  split; [reflexivity|]. split; [simpl; auto|reflexivity].
Defined.

(** ** The password *)

Lemma extends_refl (t : trace) : extends t t.
Proof. exists []. symmetry. apply app_nil_r. Qed.

Lemma extends_trans (f t u : trace) : extends f t -> extends t u -> extends f u.
Proof.
  intros [r1 ->] [r2 ->]. exists (r2 ++ r1)%list. symmetry. apply app_assoc.
Qed.

Lemma appending_ret {A} (a : A) : appending (ret a).
Proof. intros t. apply extends_refl. Qed.

Lemma appending_raise {A} (e : exn) : appending (@raise A e).
Proof. intros t. apply extends_refl. Qed.

Lemma appending_smtp_call (w : World) (ev : event) : appending (smtp_call w ev).
Proof.
  intros t. unfold smtp_call. destruct (smtp_reply w t ev); exists [ev]; reflexivity.
Qed.

Lemma appending_as_string (w : World) (m : Message) : appending (as_string w m).
Proof.
  unfold as_string. destruct (as_string_error w m);
    [apply appending_raise|apply appending_ret].
Qed.

Lemma appending_bind {A B} (m : M A) (k : A -> M B) :
  appending m -> (forall a, appending (k a)) -> appending (bind m k).
Proof.
  intros Hm Hk t. unfold bind. specialize (Hm t).
  destruct (m t) as [[a|e] t']; simpl in *; [|exact Hm].
  exact (extends_trans _ _ _ (Hk a t') Hm).
Qed.

Section Noninterference.

Variables w1 w2 : World.
Variables F1 F2 : trace.

Hypothesis same_answers :
  forall h1 e1 h2 e2,
    issued F1 h1 e1 -> issued F2 h2 e2 -> is_smtp e1 = true ->
    map redact h1 = map redact h2 -> redact e1 = redact e2 ->
    smtp_reply w1 h1 e1 = smtp_reply w2 h2 e2.

Lemma within_ret {A} (a : A) : alike_within F1 F2 (ret a) (ret a).
Proof. intros t1 t2 H _ _. split; [reflexivity|exact H]. Qed.

Lemma within_bind {A B} (m1 m2 : M A) (k1 k2 : A -> M B) :
  alike_within F1 F2 m1 m2 ->
  (forall a, appending (k1 a)) -> (forall a, appending (k2 a)) ->
  (forall a, alike_within F1 F2 (k1 a) (k2 a)) ->
  alike_within F1 F2 (bind m1 k1) (bind m2 k2).
Proof.
  intros Hm Hk1 Hk2 Hk t1 t2 H. unfold bind.
  specialize (Hm t1 t2 H).
  destruct (m1 t1) as [[a1|x1] t1'] eqn:E1, (m2 t2) as [[a2|x2] t2'] eqn:E2;
    simpl in *; intros X1 X2.
  - destruct Hm as [Ho Ht];
      [exact (extends_trans _ _ _ X1 (Hk1 a1 t1'))
      |exact (extends_trans _ _ _ X2 (Hk2 a2 t2'))|].
    inversion Ho; subst. apply Hk; assumption.
  - destruct Hm as [Ho Ht];
      [exact (extends_trans _ _ _ X1 (Hk1 a1 t1'))|exact X2|]. discriminate.
  - destruct Hm as [Ho Ht];
      [exact X1|exact (extends_trans _ _ _ X2 (Hk2 a2 t2'))|]. discriminate.
  - destruct Hm as [Ho Ht]; [exact X1|exact X2|].
    inversion Ho; subst. split; [reflexivity|exact Ht].
Qed.

Lemma within_smtp_call (e1 e2 : event) :
  is_smtp e1 = true -> redact e1 = redact e2 ->
  alike_within F1 F2 (smtp_call w1 e1) (smtp_call w2 e2).
Proof.
  intros Hs He t1 t2 H X1 X2.
  assert (I1 : issued F1 t1 e1).
  { destruct X1 as [r Hr]. exists r. rewrite Hr. unfold smtp_call.
    destruct (smtp_reply w1 t1 e1); simpl; rewrite <- app_assoc; reflexivity. }
  assert (I2 : issued F2 t2 e2).
  { destruct X2 as [r Hr]. exists r. rewrite Hr. unfold smtp_call.
    destruct (smtp_reply w2 t2 e2); simpl; rewrite <- app_assoc; reflexivity. }
  unfold smtp_call. rewrite (same_answers t1 e1 t2 e2 I1 I2 Hs H He).
  destruct (smtp_reply w2 t2 e2); simpl;
    (split; [reflexivity|]); rewrite !map_app; simpl; congruence.
Qed.

Lemma within_as_string (m : Message) :
  as_string_error w1 m = as_string_error w2 m ->
  alike_within F1 F2 (as_string w1 m) (as_string w2 m).
Proof.
  intros Hm t1 t2 H _ _. unfold as_string. rewrite Hm.
  destruct (as_string_error w2 m); simpl; split; auto.
Qed.

Lemma within_with_SMTP {A} (host : string) (port : Z) (b1 b2 : M A) :
  alike_within F1 F2 b1 b2 -> appending b1 -> appending b2 ->
  alike_within F1 F2 (with_SMTP w1 host port b1) (with_SMTP w2 host port b2).
Proof.
  intros Hb A1 A2. unfold with_SMTP.
  assert (Q1 : forall t, extends (snd (smtp_call w1 SmtpQuit t)) t)
    by apply appending_smtp_call.
  assert (Q2 : forall t, extends (snd (smtp_call w2 SmtpQuit t)) t)
    by apply appending_smtp_call.
  apply within_bind.
  - apply within_smtp_call; reflexivity.
  - intros _ t. specialize (A1 t). destruct (b1 t) as [o t']. simpl in A1.
    specialize (Q1 t'). destruct (smtp_call w1 SmtpQuit t') as [[[]|x] t''];
      simpl in *; exact (extends_trans _ _ _ Q1 A1).
  - intros _ t. specialize (A2 t). destruct (b2 t) as [o t']. simpl in A2.
    specialize (Q2 t'). destruct (smtp_call w2 SmtpQuit t') as [[[]|x] t''];
      simpl in *; exact (extends_trans _ _ _ Q2 A2).
  - intros _ t1 t2 H X1 X2.
    specialize (Hb t1 t2 H).
    destruct (b1 t1) as [o1 t1'], (b2 t2) as [o2 t2']; simpl in *.
    pose proof (within_smtp_call SmtpQuit SmtpQuit eq_refl eq_refl t1' t2') as Hq.
    specialize (Q1 t1'). specialize (Q2 t2').
    destruct (smtp_call w1 SmtpQuit t1') as [[[]|x1] t1''],
             (smtp_call w2 SmtpQuit t2') as [[[]|x2] t2''];
      simpl in *;
      (destruct Hb as [Ho Ht];
       [exact (extends_trans _ _ _ X1 Q1)|exact (extends_trans _ _ _ X2 Q2)|]);
      (destruct (Hq Ht X1 X2) as [Hqo Hqt]); try discriminate; split; auto.
    inversion Hqo; reflexivity.
Qed.

Lemma within_send (c1 c2 : EmailConfig) (msg : Message) (recipients : list string) :
  same_but_password c1 c2 ->
  as_string_error w1 msg = as_string_error w2 msg ->
  alike_within F1 F2 (_send w1 c1 msg recipients) (_send w2 c2 msg recipients).
Proof.
  intros (Hs & Hp & Hu & Ht) Has. unfold _send. rewrite Hs, Hp, Hu, Ht.
  assert (Atls : forall w, appending
            (if use_tls c2 then smtp_call w SmtpStartTLS else ret tt)).
  { intros w. destruct (use_tls c2);
      [apply appending_smtp_call|apply appending_ret]. }
  assert (Arest : forall w p, appending
            (smtp_call w (SmtpLogin (smtp_username c2) p) ;;
             data <- as_string w msg ;;
             smtp_call w (SmtpSendmail (smtp_username c2) recipients data))).
  { intros w p. apply appending_bind; [apply appending_smtp_call|].
    intros _. apply appending_bind; [apply appending_as_string|].
    intros data. apply appending_smtp_call. }
  apply within_with_SMTP.
  - apply within_bind.
    + destruct (use_tls c2); [apply within_smtp_call; reflexivity|apply within_ret].
    + intros _. apply Arest.
    + intros _. apply Arest.
    + intros _. apply within_bind.
      * apply within_smtp_call; reflexivity.
      * intros _. apply appending_bind; [apply appending_as_string|].
        intros data. apply appending_smtp_call.
      * intros _. apply appending_bind; [apply appending_as_string|].
        intros data. apply appending_smtp_call.
      * intros _. apply within_bind.
        -- apply within_as_string. exact Has.
        -- intros data. apply appending_smtp_call.
        -- intros data. apply appending_smtp_call.
        -- intros data. apply within_smtp_call; reflexivity.
  - apply appending_bind; [apply Atls|]. intros _. apply Arest.
  - apply appending_bind; [apply Atls|]. intros _. apply Arest.
Qed.

End Noninterference.

Lemma redact_is_smtp (ev : event) : is_smtp (redact ev) = is_smtp ev.
Proof. destruct ev; reflexivity. Qed.

Lemma redact_log (ev : event) : is_smtp ev = false -> redact ev = ev.
Proof. destruct ev; simpl; intros H; try discriminate; reflexivity. Qed.

Lemma log_entries_redact (tr : trace) :
  log_entries (map redact tr) = log_entries tr.
Proof.
  unfold log_entries. induction tr as [|ev tr IH]; simpl; [reflexivity|].
  rewrite redact_is_smtp.
  destruct (is_smtp ev) eqn:Hev; simpl; [exact IH|].
  rewrite IH, (redact_log ev Hev). reflexivity.
Qed.

(** C7 (as stated, refuted).  The configured password is ["hunter2"]; the
    server rejects the login and its reply repeats the password; the error
    of the result carries the reply, password included. *)
Lemma error_shows_password :
  _get_email_config Worlds.echoing []
  = (Return (Some (Worlds.settings "hunter2")), [])
  /\ fst (execute Worlds.echoing "a@x.com" "Hi" "hello" None None false [])
     = Return (failed_result "a@x.com" "Hi"
                 "Error sending email: (535, b'bad credentials: hunter2')")
  /\ contains "hunter2" "Error sending email: (535, b'bad credentials: hunter2')"
     = true.
Proof. repeat split. Qed.

(** C7 (amended).  The result of [execute] and the log do not depend on the
    password except through what the libraries answer in the two runs: when
    two runs whose configurations differ at most in the password get the
    same answer from [MIMEText] and from [as_string], and the same reply
    wherever both make the same SMTP call (up to the password) after the
    same calls, they return the same result (the same error string
    included) and write the same log entries; their traces differ at most
    in the password handed to [login]. *)
Theorem password_noninterference (w1 w2 : World) (to subj body : string)
    (cc bcc : option (list string)) (is_html : bool) (tr1 tr2 : trace)
    (c1 c2 : EmailConfig) :
  _get_email_config w1 tr1 = (Return (Some c1), tr1) ->
  _get_email_config w2 tr2 = (Return (Some c2), tr2) ->
  same_but_password c1 c2 ->
  map redact tr1 = map redact tr2 ->
  mime_text_error w1 body (content_type is_html)
  = mime_text_error w2 body (content_type is_html) ->
  as_string_error w1 (built_message c1 to subj body cc is_html)
  = as_string_error w2 (built_message c2 to subj body cc is_html) ->
  (forall h1 e1 h2 e2,
     issued (snd (execute w1 to subj body cc bcc is_html tr1)) h1 e1 ->
     issued (snd (execute w2 to subj body cc bcc is_html tr2)) h2 e2 ->
     is_smtp e1 = true ->
     map redact h1 = map redact h2 -> redact e1 = redact e2 ->
     smtp_reply w1 h1 e1 = smtp_reply w2 h2 e2) ->
  fst (execute w1 to subj body cc bcc is_html tr1)
  = fst (execute w2 to subj body cc bcc is_html tr2)
  /\ map redact (snd (execute w1 to subj body cc bcc is_html tr1))
     = map redact (snd (execute w2 to subj body cc bcc is_html tr2))
  /\ log_entries (snd (execute w1 to subj body cc bcc is_html tr1))
     = log_entries (snd (execute w2 to subj body cc bcc is_html tr2)).
Proof.
  intros Hc1 Hc2 Hsame Htr Hmime Has Hr.
  assert (Hmain :
    fst (execute w1 to subj body cc bcc is_html tr1)
    = fst (execute w2 to subj body cc bcc is_html tr2)
    /\ map redact (snd (execute w1 to subj body cc bcc is_html tr1))
       = map redact (snd (execute w2 to subj body cc bcc is_html tr2))).
  { revert Hr. rewrite !execute_eq, Hc1, Hc2, Hmime.
    destruct (mime_text_error w2 body (content_type is_html)); [split; auto|].
    assert (Hmsg : built_message c1 to subj body cc is_html
                   = built_message c2 to subj body cc is_html).
    { unfold built_message, message_headers.
      destruct Hsame as (_ & _ & -> & _). reflexivity. }
    rewrite Hmsg in *. intros Hr.
    pose proof (within_send w1 w2 _ _ Hr c1 c2
                  (built_message c2 to subj body cc is_html)
                  (recipient_list to cc bcc) Hsame Has tr1 tr2 Htr) as Hsim.
    destruct (_send w1 c1 _ _ tr1) as [o1 t1'], (_send w2 c2 _ _ tr2) as [o2 t2'].
    simpl in *.
    destruct Hsim as [Ho Ht]; [eexists; reflexivity|eexists; reflexivity|].
    subst o2. split; [reflexivity|]. rewrite !map_app, Ht. reflexivity. }
  destruct Hmain as [Ho Ht]. split; [exact Ho|]. split; [exact Ht|].
  rewrite <- (log_entries_redact (snd (execute w1 to subj body cc bcc is_html tr1))),
          <- (log_entries_redact (snd (execute w2 to subj body cc bcc is_html tr2))),
          Ht.
  reflexivity.
Qed.

(** The amended C7 at a server that checks the password: two runs with two
    different wrong passwords are rejected alike and report the same
    error. *)
Lemma password_noninterference_witness :
  fst (execute (Worlds.guarded "hunter2" "swordfish") "a@x.com" "Hi" "hello" None None
         false [])
  = fst (execute (Worlds.guarded "letmein" "swordfish") "a@x.com" "Hi" "hello" None
           None false [])
  /\ fst (execute (Worlds.guarded "letmein" "swordfish") "a@x.com" "Hi" "hello" None
            None false [])
     = Return (failed_result "a@x.com" "Hi"
                 "Error sending email: (535, b'authentication failed')").
Proof.
  split; [|reflexivity].
  apply (password_noninterference
           (Worlds.guarded "hunter2" "swordfish") (Worlds.guarded "letmein" "swordfish")
           "a@x.com" "Hi" "hello" None None false [] []
           (Worlds.settings "hunter2") (Worlds.settings "letmein")).
  - reflexivity.
  - reflexivity.
  - repeat split.
  - reflexivity.
  - reflexivity.
  - reflexivity.
  - intros h1 e1 h2 e2 [r1 H1] [r2 H2] Hs _ He.
    assert (I1 : In e1 (snd (execute (Worlds.guarded "hunter2" "swordfish")
                               "a@x.com" "Hi" "hello" None None false [])))
      by (rewrite H1; apply in_elt).
    assert (I2 : In e2 (snd (execute (Worlds.guarded "letmein" "swordfish")
                               "a@x.com" "Hi" "hello" None None false [])))
      by (rewrite H2; apply in_elt).
    clear H1 H2. vm_compute in I1, I2.
    repeat (destruct I1 as [<-|I1]; [|]); try contradiction;
      repeat (destruct I2 as [<-|I2]; [|]); try contradiction;
      try discriminate He; reflexivity.
Defined.

(** ** The order of the session *)

(** C8.  In a session with [use_tls] set, every [login] call comes after a
    [starttls] call and every [sendmail] call after the [login] call; when
    [starttls] raises, the session consists of the connection, the failed
    [starttls] and QUIT: neither [login] nor [sendmail] is called.  When
    every call is answered the session is connect, starttls, login,
    sendmail, quit. *)
Theorem starttls_before_login (w : World) (c : EmailConfig) (msg : Message)
    (recipients : list string) (tr : trace) :
  use_tls c = true ->
  exists evs,
    snd (_send w c msg recipients tr) = (tr ++ evs)%list
    /\ (forall j user password,
          nth_error evs j = Some (SmtpLogin user password) ->
          exists i, (i < j)%nat /\ nth_error evs i = Some SmtpStartTLS)
    /\ (forall k f r m,
          nth_error evs k = Some (SmtpSendmail f r m) ->
          exists j, (j < k)%nat
            /\ nth_error evs j
               = Some (SmtpLogin (smtp_username c) (smtp_password c)))
    /\ (forall e,
          smtp_reply w tr (SmtpConnect (smtp_server c) (smtp_port c)) = None ->
          smtp_reply w (tr ++ [SmtpConnect (smtp_server c) (smtp_port c)])%list
            SmtpStartTLS = Some e ->
          evs = [SmtpConnect (smtp_server c) (smtp_port c); SmtpStartTLS; SmtpQuit])
    /\ ((forall h ev, smtp_reply w h ev = None) ->
        as_string_error w msg = None ->
        evs = [SmtpConnect (smtp_server c) (smtp_port c); SmtpStartTLS;
               SmtpLogin (smtp_username c) (smtp_password c);
               SmtpSendmail (smtp_username c) recipients msg; SmtpQuit]).
Proof.
  intros Htls.
  destruct (send_trace w c msg recipients tr) as (o & evs & Heq & Hin).
  exists evs. rewrite Heq. split; [reflexivity|].
  split; [|split; [|split]].
  - unfold sessions, connect_ev, login_ev, sendmail_ev in Hin. rewrite Htls in Hin.
    simpl in Hin.
    intros j user password Hj.
    destruct Hin as [<-|[<-|[<-|[<-|[]]]]];
      do 5 (try destruct j as [|j]); simpl in Hj; try discriminate;
      try (destruct j; discriminate);
      exists 1%nat; (split; [lia|reflexivity]).
  - unfold sessions, connect_ev, login_ev, sendmail_ev in Hin. rewrite Htls in Hin.
    simpl in Hin.
    intros k f r m Hk.
    destruct Hin as [<-|[<-|[<-|[<-|[]]]]];
      do 5 (try destruct k as [|k]); simpl in Hk; try discriminate;
      try (destruct k; discriminate);
      exists 2%nat; (split; [lia|reflexivity]).
  - intros e Hc Ht.
    pose proof (send_starttls_failed w c msg recipients tr e Htls Hc Ht) as Hs.
    rewrite Heq in Hs. simpl in Hs. apply app_inv_head in Hs. exact Hs.
  - intros Hr Has.
    pose proof (send_accepted w c msg recipients tr Hr Has) as Hs.
    rewrite Heq, Htls in Hs. inversion Hs as [[Ho Hevs]].
    apply app_inv_head in Hevs. exact Hevs.
Qed.

(** C8 at a server that answers every call. *)
Lemma starttls_before_login_witness :
  exists evs,
    snd (_send Worlds.working
           (Worlds.settings "hunter2")
           (built_message
              (Worlds.settings "hunter2")
              "a@x.com" "Hi" "hello" None false)
           ["a@x.com"] [])
    = evs
    /\ nth_error evs 1 = Some SmtpStartTLS
    /\ nth_error evs 2 = Some (SmtpLogin "agent@example.com" "hunter2").
Proof.
  destruct (starttls_before_login Worlds.working
              (Worlds.settings "hunter2")
              (built_message
                 (Worlds.settings "hunter2")
                 "a@x.com" "Hi" "hello" None false)
              ["a@x.com"] [] eq_refl)
    as (evs & Htr & _ & _ & _ & Hall).
  exists evs. split; [exact Htr|].
  rewrite Hall; [split; reflexivity| intros h ev; reflexivity | reflexivity].
Defined.

(** ** The arguments in the result *)

(** C9.  Every result [execute] returns carries the [to] and [subject] of
    the call, and [execute] does return one on each of its branches: no
    configuration, a session that went through, and a session that raised
    an [Exception]. *)
Theorem execute_echoes_arguments (w : World) (to subj body : string)
    (cc bcc : option (list string)) (is_html : bool) (tr : trace) :
  (forall r tr',
     execute w to subj body cc bcc is_html tr = (Return r, tr') ->
     recipient r = to /\ subject r = subj)
  /\ (forall tr1,
        _get_email_config w tr = (Return None, tr1) ->
        exists r tr',
          execute w to subj body cc bcc is_html tr = (Return r, tr')
          /\ message_sent r = false /\ recipient r = to /\ subject r = subj)
  /\ (forall c tr1 tr2,
        _get_email_config w tr = (Return (Some c), tr1) ->
        mime_text_error w body (content_type is_html) = None ->
        _send w c (built_message c to subj body cc is_html)
          (recipient_list to cc bcc) tr1 = (Return tt, tr2) ->
        exists r tr',
          execute w to subj body cc bcc is_html tr = (Return r, tr')
          /\ message_sent r = clean to subj
          /\ recipient r = to /\ subject r = subj)
  /\ (forall c tr1 tr2 e,
        _get_email_config w tr = (Return (Some c), tr1) ->
        mime_text_error w body (content_type is_html) = None ->
        _send w c (built_message c to subj body cc is_html)
          (recipient_list to cc bcc) tr1 = (Raise e, tr2) ->
        is_Exception e = true ->
        exists r tr',
          execute w to subj body cc bcc is_html tr = (Return r, tr')
          /\ message_sent r = false /\ recipient r = to /\ subject r = subj).
Proof.
  rewrite execute_eq. split; [|split; [|split]].
  - intros r tr' Hrun.
    destruct (_get_email_config w tr) as [[[c|]|x] tr1]; try discriminate.
    + destruct (mime_text_error w body (content_type is_html)); try discriminate.
      destruct (_send w c (built_message c to subj body cc is_html)
                  (recipient_list to cc bcc) tr1) as [[[]|x] tr2];
        unfold report in Hrun;
        try destruct (is_Exception x); destruct (clean to subj);
        inversion Hrun; subst r; split; reflexivity.
    + inversion Hrun; subst r. split; reflexivity.
  - intros tr1 Hcfg. rewrite Hcfg. do 2 eexists. repeat split.
  - intros c tr1 tr2 Hcfg Hmime Hsend. rewrite Hcfg, Hmime, Hsend.
    unfold report. destruct (clean to subj); do 2 eexists; repeat split.
  - intros c tr1 tr2 e Hcfg Hmime Hsend He. rewrite Hcfg, Hmime, Hsend.
    unfold report. rewrite He. destruct (clean to subj); do 2 eexists; repeat split.
Qed.

(** C9 at a server that rejects the login. *)
Lemma execute_echoes_arguments_witness :
  recipient (failed_result "a@x.com" "Hi"
               "Error sending email: (535, b'bad credentials: hunter2')") = "a@x.com"
  /\ subject (failed_result "a@x.com" "Hi"
                "Error sending email: (535, b'bad credentials: hunter2')") = "Hi".
Proof.
  apply (proj1 (execute_echoes_arguments Worlds.echoing "a@x.com" "Hi" "hello"
                  None None false [])
           (failed_result "a@x.com" "Hi"
              "Error sending email: (535, b'bad credentials: hunter2')")
           [SmtpConnect "smtp.example.com" 587; SmtpStartTLS;
            SmtpLogin "agent@example.com" "hunter2"; SmtpQuit;
            Log ERROR "Error sending email: (535, b'bad credentials: hunter2')"]).
  reflexivity.
Defined.

(** ** Empty and omitted lists *)

(** C10.  [execute] with [cc = []] is [execute] with [cc] omitted, and the
    same for [bcc]: the same result and the same trace.  With [cc] empty or
    omitted every [sendmail] call gets the recipients [[to] ++ bcc] and a
    message without a Cc header. *)
Theorem empty_list_is_omitted (w : World) (to subj body : string)
    (cc bcc : option (list string)) (is_html : bool) (tr : trace) :
  execute w to subj body (Some []) bcc is_html tr
  = execute w to subj body None bcc is_html tr
  /\ execute w to subj body cc (Some []) is_html tr
     = execute w to subj body cc None is_html tr
  /\ (exists evs,
        snd (execute w to subj body None bcc is_html tr) = (tr ++ evs)%list
        /\ snd (execute w to subj body (Some []) bcc is_html tr) = (tr ++ evs)%list
        /\ forall f r m,
             In (SmtpSendmail f r m) evs ->
             r = ([to] ++ opt_list bcc)%list /\ msg_get m "Cc" = None).
Proof.
  split; [reflexivity|]. split.
  - rewrite !execute_eq. unfold recipient_list.
    destruct cc as [[|a l]|]; reflexivity.
  - destruct (execute_sendmail w to subj body None bcc is_html tr)
      as (evs & Htr & Hargs).
    exists evs. split; [exact Htr|]. split; [exact Htr|].
    intros f r m Hin. destruct (Hargs f r m Hin) as (c & _ & _ & -> & ->).
    split; [|reflexivity].
    rewrite recipient_list_app. reflexivity.
Qed.

(** * Further properties *)

(** ** Sessions *)

Lemma sessions_no_log (c : EmailConfig) (msg : Message) (recipients : list string)
    (evs : list event) :
  In evs (sessions c msg recipients) ->
  smtp_calls evs = evs /\ log_entries evs = [].
Proof.
  unfold sessions. intros H.
  destruct (use_tls c); simpl in H;
    repeat (destruct H as [<-|H]; [split; reflexivity|]); contradiction.
Qed.

Ltac quit_case :=
  match goal with
  | |- context [match smtp_reply ?w ?t SmtpQuit with _ => _ end] =>
      destruct (smtp_reply w t SmtpQuit) eqn:?
  end.

(** A session that returns is the full session, every call of which was
    answered. *)
Lemma send_returned (w : World) (c : EmailConfig) (msg : Message)
    (recipients : list string) (tr tr' : trace) :
  _send w c msg recipients tr = (Return tt, tr') ->
  tr' = (tr ++ full_session c msg recipients)%list
  /\ session_accepted w c msg recipients tr.
Proof.
  unfold _send, with_SMTP, smtp_call, as_string, bind, ret, raise,
    session_accepted, full_session, tls_steps, connect_ev, login_ev, sendmail_ev.
  destruct (smtp_reply w tr (SmtpConnect (smtp_server c) (smtp_port c))) eqn:Hc; [discriminate|].
  destruct (use_tls c) eqn:Htls; simpl.
  - destruct (smtp_reply w (tr ++ [SmtpConnect (smtp_server c) (smtp_port c)])%list SmtpStartTLS) eqn:Ht.
    { quit_case; discriminate. }
    destruct (smtp_reply w ((tr ++ [SmtpConnect (smtp_server c) (smtp_port c)]) ++ [SmtpStartTLS])%list (SmtpLogin (smtp_username c) (smtp_password c))) eqn:Hl.
    { quit_case; discriminate. }
    destruct (as_string_error w msg) eqn:Ha.
    { quit_case; discriminate. }
    destruct (smtp_reply w _ (SmtpSendmail (smtp_username c) recipients msg)) eqn:Hs.
    { quit_case; discriminate. }
    quit_case; [discriminate|].
    intros H; inversion H. rewrite <- !app_assoc. simpl. auto 10.
  - rewrite app_nil_r.
    destruct (smtp_reply w (tr ++ [SmtpConnect (smtp_server c) (smtp_port c)])%list (SmtpLogin (smtp_username c) (smtp_password c))) eqn:Hl.
    { quit_case; discriminate. }
    destruct (as_string_error w msg) eqn:Ha.
    { quit_case; discriminate. }
    destruct (smtp_reply w _ (SmtpSendmail (smtp_username c) recipients msg)) eqn:Hs.
    { quit_case; discriminate. }
    quit_case; [discriminate|].
    intros H; inversion H. rewrite <- !app_assoc. simpl.
    repeat split; auto. discriminate.
Qed.

(** ** What a call of [execute] leaves behind *)

(** X1.  A result that [execute] returns has one of two shapes: sent, no
    error, and the success sentence as output; or not sent, no output, and
    as error the fixed configuration text, ["Error sending email: "] followed
    by the text of an exception, or, only when [to] or [subject] holds a
    surrogate, ["Failed to send email: "] followed by a text.  So
    [message_sent] holds exactly when there is no error, and the wording
    "failed to be sent" is never produced by [execute]. *)
Theorem execute_result_shapes (w : World) (to subj body : string)
    (cc bcc : option (list string)) (is_html : bool) (tr tr' : trace)
    (r : EmailResult) :
  execute w to subj body cc bcc is_html tr = (Return r, tr') ->
  (message_sent r = true /\ error r = None
   /\ output r = Some ("Email to " ++ to ++ " with subject '" ++ subj
                       ++ "' was successfully sent.")
   /\ clean to subj = true)
  \/ (message_sent r = false /\ output r = None
      /\ (error r = Some "Email configuration is missing or incomplete in app config."
          \/ (exists e, error r = Some ("Error sending email: " ++ str e))
          \/ (clean to subj = false
              /\ exists text, error r = Some ("Failed to send email: " ++ text)))).
Proof.
  rewrite execute_eq. intros Hrun.
  destruct (_get_email_config w tr) as [[[c|]|x] tr1]; try discriminate.
  - destruct (mime_text_error w body (content_type is_html)); try discriminate.
    destruct (_send w c (built_message c to subj body cc is_html)
                (recipient_list to cc bcc) tr1) as [[[]|x] tr2];
      unfold report in Hrun;
      try destruct (is_Exception x); destruct (clean to subj);
      inversion Hrun; subst r.
    + left. repeat split.
    + right. repeat split. right. right. split; [reflexivity|].
      eexists. reflexivity.
    + right. repeat split. right. left. exists x. reflexivity.
    + right. repeat split. right. right. split; [reflexivity|].
      eexists. reflexivity.
  - inversion Hrun; subst r. right. repeat split. left. reflexivity.
Qed.

(** X1 at a server that rejects the login. *)
Lemma execute_result_shapes_witness :
  (message_sent (failed_result "a@x.com" "Hi"
                   "Error sending email: (535, b'bad credentials: hunter2')") = false)
  /\ output (failed_result "a@x.com" "Hi"
               "Error sending email: (535, b'bad credentials: hunter2')") = None.
Proof.
  destruct (execute_result_shapes Worlds.echoing "a@x.com" "Hi" "hello" None None
              false []
              [SmtpConnect "smtp.example.com" 587; SmtpStartTLS;
               SmtpLogin "agent@example.com" "hunter2"; SmtpQuit;
               Log ERROR "Error sending email: (535, b'bad credentials: hunter2')"]
              (failed_result "a@x.com" "Hi"
                 "Error sending email: (535, b'bad credentials: hunter2')")
              eq_refl) as [(H & _) | (H1 & H2 & _)].
  - discriminate H.
  - split; [exact H1|exact H2].
Defined.

(** The log entries of a report: at most three, the last one at level INFO
    for a sent result and at level ERROR otherwise, and one only when the
    header values are plain. *)
Lemma report_entries (to subject : string) (o : outcome unit) :
  match fst (report to subject o) with
  | Return r =>
      exists front text,
        snd (report to subject o)
        = (front ++ [Log (if message_sent r then INFO else ERROR) text])%list
        /\ (length front <= 2)%nat
        /\ (clean to subject = true -> front = [])
  | Raise _ => snd (report to subject o) = []
  end.
Proof.
  assert (Hlen : (length (inner_logs to subject o) <= 2)%nat).
  { unfold inner_logs, success_entry. destruct o as [[]|e]; [|simpl; lia].
    destruct (shown to); [destruct (shown subject)|]; simpl; lia. }
  destruct (clean to subject) eqn:Hclean.
  - rewrite (report_clean _ _ o Hclean).
    destruct o as [[]|e]; [|destruct (is_Exception e)]; simpl; try reflexivity;
      exists []; eexists; (split; [reflexivity|]);
      (split; [simpl; lia|reflexivity]).
  - unfold report. rewrite Hclean.
    destruct o as [u|e]; [|destruct (is_Exception e); [|reflexivity]];
      cbn [fst snd message_sent failed_result];
      [exists (inner_logs to subject (Return u))
      |exists (inner_logs to subject (Raise e))];
      exists rejected_text; (split; [reflexivity|]);
      (split; [exact Hlen|discriminate]).
Qed.

(** X2.  A call of [execute] that raises writes no log entry.  A call that
    returns writes at least one and at most three; the last one is at level
    INFO when the message is reported sent and at level ERROR otherwise; and
    it is the only one when neither [to] nor [subject] holds a surrogate. *)
Theorem execute_logs_once (w : World) (to subj body : string)
    (cc bcc : option (list string)) (is_html : bool) (tr : trace) :
  exists evs,
    snd (execute w to subj body cc bcc is_html tr) = (tr ++ evs)%list
    /\ match fst (execute w to subj body cc bcc is_html tr) with
       | Return r =>
           exists front text,
             log_entries evs
             = (front ++ [Log (if message_sent r then INFO else ERROR) text])%list
             /\ (length front <= 2)%nat
             /\ (clean to subj = true -> front = [])
       | Raise _ => log_entries evs = []
       end.
Proof.
  rewrite execute_eq.
  destruct (get_email_config_cases w tr) as [[c Hc] | [[text Hn] | Hr]].
  - rewrite Hc.
    destruct (mime_text_error w body (content_type is_html)).
    { exists []. rewrite app_nil_r. split; reflexivity. }
    destruct (send_trace w c (built_message c to subj body cc is_html)
                (recipient_list to cc bcc) tr) as (o & evs & Heq & Hin).
    rewrite Heq. destruct (sessions_no_log _ _ _ _ Hin) as [_ Hlog].
    simpl. eexists. rewrite <- app_assoc. split; [reflexivity|].
    assert (Hl : log_entries (evs ++ snd (report to subj o))%list
                 = snd (report to subj o)).
    { unfold log_entries in *. rewrite filter_app, Hlog. simpl.
      apply forallb_filter_id. apply forallb_forall. intros ev Hev.
      rewrite (proj2 (report_logs to subj o) ev Hev). reflexivity. }
    rewrite Hl. apply report_entries.
  - rewrite Hn. simpl. eexists. split; [reflexivity|].
    exists [], text. split; [reflexivity|]. split; [simpl; lia|reflexivity].
  - rewrite Hr. simpl. exists []. rewrite app_nil_r. split; reflexivity.
Qed.

Lemma logs_have_no_calls (l : list event) :
  (forall ev, In ev l -> is_smtp ev = false) ->
  smtp_calls l = [] /\ filter is_connect l = [] /\ filter is_sendmail l = [].
Proof.
  unfold smtp_calls. induction l as [|ev l IH]; intros H; [repeat split|].
  destruct IH as (I1 & I2 & I3); [intros x Hx; apply H; right; exact Hx|].
  pose proof (H ev (or_introl eq_refl)) as Hev.
  destruct ev; try discriminate. simpl. auto.
Qed.

(** X3.  A call of [execute] opens at most one SMTP session and never
    retries: its SMTP calls are none at all, or one of the call sequences of
    a single session for the resolved configuration, the built message and
    the recipient list; so there are at most five calls, at most one
    connection and at most one [sendmail]. *)
Theorem execute_single_session (w : World) (to subj body : string)
    (cc bcc : option (list string)) (is_html : bool) (tr : trace) :
  exists evs,
    snd (execute w to subj body cc bcc is_html tr) = (tr ++ evs)%list
    /\ (smtp_calls evs = []
        \/ exists c,
             _get_email_config w tr = (Return (Some c), tr)
             /\ In (smtp_calls evs)
                  (sessions c (built_message c to subj body cc is_html)
                     (recipient_list to cc bcc)))
    /\ (length (smtp_calls evs) <= 5)%nat
    /\ (length (filter is_connect evs) <= 1)%nat
    /\ (length (filter is_sendmail evs) <= 1)%nat.
Proof.
  rewrite execute_eq.
  destruct (get_email_config_cases w tr) as [[c Hc] | [[text Hn] | Hr]].
  - rewrite Hc.
    destruct (mime_text_error w body (content_type is_html)).
    { exists []. rewrite app_nil_r. split; [reflexivity|].
      split; [left; reflexivity|]. simpl. lia. }
    destruct (send_trace w c (built_message c to subj body cc is_html)
                (recipient_list to cc bcc) tr) as (o & evs & Heq & Hin).
    rewrite Heq. destruct (sessions_no_log _ _ _ _ Hin) as [Hsmtp _].
    assert (Hcount : forall l, smtp_calls l = [] ->
              filter is_connect l = [] -> filter is_sendmail l = [] ->
              (smtp_calls (evs ++ l)%list = [] \/
               exists c0, (Return (Some c), tr) = (Return (Some c0), tr)
                 /\ In (smtp_calls (evs ++ l)%list)
                      (sessions c0 (built_message c0 to subj body cc is_html)
                         (recipient_list to cc bcc)))
              /\ (length (smtp_calls (evs ++ l)%list) <= 5)%nat
              /\ (length (filter is_connect (evs ++ l)%list) <= 1)%nat
              /\ (length (filter is_sendmail (evs ++ l)%list) <= 1)%nat).
    { intros l Hl1 Hl2 Hl3. unfold smtp_calls in *.
      rewrite !filter_app, Hl1, Hl2, Hl3, !app_nil_r, Hsmtp.
      split; [right; exists c; split; [reflexivity|exact Hin]|].
      unfold sessions in Hin.
      destruct (use_tls c); simpl in Hin;
        repeat (destruct Hin as [<-|Hin]; [simpl; lia|]); contradiction. }
    simpl. eexists. rewrite <- app_assoc. split; [reflexivity|].
    destruct (logs_have_no_calls _ (proj2 (report_logs to subj o)))
      as (L1 & L2 & L3).
    apply Hcount; assumption.
  - rewrite Hn. simpl. eexists. split; [reflexivity|].
    split; [left; reflexivity|]. simpl. lia.
  - rewrite Hr. simpl. exists []. rewrite app_nil_r. split; [reflexivity|].
    split; [left; reflexivity|]. simpl. lia.
Qed.

(** X4.  [execute] reports success only for a session that took place in
    full: when the result has [message_sent = true], the configuration was
    resolved, every SMTP call from the connection to QUIT was answered, and
    the call left exactly the full session and the success entry in the
    trace. *)
Theorem success_means_sent (w : World) (to subj body : string)
    (cc bcc : option (list string)) (is_html : bool) (tr tr' : trace)
    (r : EmailResult) :
  execute w to subj body cc bcc is_html tr = (Return r, tr') ->
  message_sent r = true ->
  exists c,
    _get_email_config w tr = (Return (Some c), tr)
    /\ session_accepted w c (built_message c to subj body cc is_html)
         (recipient_list to cc bcc) tr
    /\ tr' = (tr ++ full_session c (built_message c to subj body cc is_html)
                      (recipient_list to cc bcc)
                 ++ [sent_log to subj])%list.
Proof.
  rewrite execute_eq. intros Hrun Hsent.
  destruct (get_email_config_cases w tr) as [[c Hc] | [[text Hn] | Hr]].
  - rewrite Hc in Hrun.
    destruct (mime_text_error w body (content_type is_html)); try discriminate.
    destruct (_send w c (built_message c to subj body cc is_html)
                (recipient_list to cc bcc) tr) as [[[]|x] tr2] eqn:Hsend;
      unfold report in Hrun;
      try destruct (is_Exception x); destruct (clean to subj);
      inversion Hrun; subst r; try discriminate.
    destruct (send_returned _ _ _ _ _ _ Hsend) as [-> Hacc].
    exists c. split; [exact Hc|]. split; [exact Hacc|].
    simpl. rewrite <- app_assoc. reflexivity.
  - rewrite Hn in Hrun. inversion Hrun; subst r. discriminate.
  - rewrite Hr in Hrun. discriminate.
Qed.

(** X4 at a server that answers every call. *)
Lemma success_means_sent_witness :
  exists c,
    _get_email_config Worlds.working [] = (Return (Some c), [])
    /\ session_accepted Worlds.working c
         (built_message c "a@x.com" "Hi" "hello" None false)
         (recipient_list "a@x.com" None None) [].
Proof.
  destruct (success_means_sent Worlds.working "a@x.com" "Hi" "hello" None None false []
              (full_session (Worlds.settings "hunter2")
                 (built_message (Worlds.settings "hunter2") "a@x.com" "Hi" "hello"
                    None false)
                 (recipient_list "a@x.com" None None)
               ++ [sent_log "a@x.com" "Hi"])%list
              (sent_result "a@x.com" "Hi") eq_refl eq_refl)
    as (c & Hc & Hacc & _).
  exists c. split; [exact Hc|exact Hacc].
Defined.

(** X5.  An exception of class [Exception] that leaves [execute] was raised
    before anything happened: it is pydantic's rejection of the configuration
    or [MIMEText]'s rejection of the body, and the trace is as it was, with
    no SMTP call and no log entry. *)
Theorem escaped_exception_untraced (w : World) (to subj body : string)
    (cc bcc : option (list string)) (is_html : bool) (tr tr' : trace) (e : exn) :
  execute w to subj body cc bcc is_html tr = (Raise e, tr') ->
  is_Exception e = true ->
  tr' = tr
  /\ (e = validation_error "EmailConfig"
      \/ mime_text_error w body (content_type is_html) = Some e).
Proof.
  rewrite execute_eq. intros Hrun He.
  destruct (get_email_config_cases w tr) as [[c Hc] | [[text Hn] | Hr]].
  - rewrite Hc in Hrun.
    destruct (mime_text_error w body (content_type is_html)) as [x|].
    { inversion Hrun; subst. split; [reflexivity|right; reflexivity]. }
    destruct (_send w c (built_message c to subj body cc is_html)
                (recipient_list to cc bcc) tr) as [[[]|x] tr2];
      unfold report in Hrun;
      try destruct (is_Exception x) eqn:Hx; destruct (clean to subj);
      inversion Hrun; subst; congruence.
  - rewrite Hn in Hrun. discriminate.
  - rewrite Hr in Hrun. inversion Hrun; subst.
    split; [reflexivity|left; reflexivity].
Qed.

(** X5 at a configuration whose port is [None]. *)
Lemma escaped_exception_untraced_witness :
  snd (execute Worlds.port_is_None "a@x.com" "Hi" "hello" None None false []) = [].
Proof.
  apply (escaped_exception_untraced Worlds.port_is_None "a@x.com" "Hi" "hello" None
           None false [] _ (validation_error "EmailConfig")).
  - reflexivity.
  - reflexivity.
Defined.

(** ** More on the session *)

Ltac session_cases w c :=
  unfold _send, with_SMTP, smtp_call, as_string, bind, ret, raise,
    tls_steps, connect_ev, login_ev, sendmail_ev in *;
  destruct (use_tls c) eqn:?; simpl in *; rewrite ?app_nil_r in *;
  repeat match goal with
    | |- context [match smtp_reply w ?t ?e with _ => _ end] =>
        destruct (smtp_reply w t e) eqn:?
    | |- context [match as_string_error w ?m with _ => _ end] =>
        destruct (as_string_error w m) eqn:?
    end;
  simpl; rewrite <- ?app_assoc; simpl.

(** X6.  The connection is closed on every path: when the connection cannot
    be opened, [_send] raises the exception of the connection attempt and
    makes no further call; once it is open, the last call of the session is
    QUIT, whether the calls in between returned or raised, and QUIT is sent
    once. *)
Theorem session_always_quits (w : World) (c : EmailConfig) (msg : Message)
    (recipients : list string) (tr : trace) :
  (forall e,
     smtp_reply w tr (connect_ev c) = Some e ->
     _send w c msg recipients tr = (Raise e, (tr ++ [connect_ev c])%list))
  /\ (smtp_reply w tr (connect_ev c) = None ->
      exists mid,
        snd (_send w c msg recipients tr)
        = (tr ++ connect_ev c :: mid ++ [SmtpQuit])%list
        /\ ~ In SmtpQuit mid
        /\ (length mid <= 3)%nat).
Proof.
  split.
  - intros e He. unfold _send, with_SMTP, smtp_call, bind, connect_ev in *.
    rewrite He. reflexivity.
  - intros Hc. session_cases w c; try discriminate;
      match goal with
      | |- exists mid, (?t ++ ?a :: ?l)%list = _ /\ _ =>
          let n := eval cbv in (length l - 1)%nat in
          exists (firstn n l)
      end; simpl;
      (split; [reflexivity|split; [|lia]]);
      intros H; repeat (destruct H as [H|H]; try discriminate); exact H.
Qed.

(** X7.  Without [use_tls] the session never calls STARTTLS, and [sendmail]
    still comes after the login. *)
Theorem plain_session_skips_starttls (w : World) (c : EmailConfig) (msg : Message)
    (recipients : list string) (tr : trace) :
  use_tls c = false ->
  exists evs,
    snd (_send w c msg recipients tr) = (tr ++ evs)%list
    /\ ~ In SmtpStartTLS evs
    /\ (forall k f r m,
          nth_error evs k = Some (SmtpSendmail f r m) ->
          exists j, (j < k)%nat /\ nth_error evs j = Some (login_ev c)).
Proof.
  intros Htls.
  destruct (send_trace w c msg recipients tr) as (o & evs & Heq & Hin).
  exists evs. rewrite Heq. split; [reflexivity|].
  unfold sessions, connect_ev, login_ev, sendmail_ev in *. rewrite Htls in Hin.
  simpl in Hin. split.
  - intros H. destruct Hin as [<-|[<-|[<-|[]]]]; simpl in H;
      repeat (destruct H as [H|H]; try discriminate); exact H.
  - intros k f r m Hk.
    destruct Hin as [<-|[<-|[<-|[]]]];
      do 4 (try destruct k as [|k]); simpl in Hk; try discriminate;
      try (destruct k; discriminate);
      exists 1%nat; (split; [lia|reflexivity]).
Qed.

(** X7 at a configuration without TLS. *)
Lemma plain_session_skips_starttls_witness :
  exists evs,
    snd (_send Worlds.working
           {| smtp_server := "localhost"; smtp_port := 25; smtp_username := "agent";
              smtp_password := "pw"; use_tls := false |}
           MIMEMultipart ["a@x.com"] []) = evs
    /\ ~ In SmtpStartTLS evs.
Proof.
  destruct (plain_session_skips_starttls Worlds.working
              {| smtp_server := "localhost"; smtp_port := 25; smtp_username := "agent";
                 smtp_password := "pw"; use_tls := false |}
              MIMEMultipart ["a@x.com"] [] eq_refl) as (evs & Htr & Hno & _).
  exists evs. split; [exact Htr|exact Hno].
Defined.

(** X8.  Nothing is transmitted unless the server took the login: a
    [sendmail] call in the session means that the connection, STARTTLS (with
    [use_tls]) and the login were answered and that the message could be
    flattened. *)
Theorem sendmail_needs_login (w : World) (c : EmailConfig) (msg : Message)
    (recipients : list string) (tr : trace) :
  exists evs,
    snd (_send w c msg recipients tr) = (tr ++ evs)%list
    /\ (In (sendmail_ev c msg recipients) evs ->
        smtp_reply w tr (connect_ev c) = None
        /\ (use_tls c = true ->
            smtp_reply w (tr ++ [connect_ev c])%list SmtpStartTLS = None)
        /\ smtp_reply w (tr ++ connect_ev c :: tls_steps c)%list (login_ev c) = None
        /\ as_string_error w msg = None).
Proof.
  session_cases w c;
    (eexists; split; [reflexivity|]);
    intros H; simpl in H;
    repeat (destruct H as [H|H]; try discriminate); try contradiction;
    rewrite <- ?app_assoc in *; simpl in *;
    repeat split; intros; congruence.
Qed.

(** X9.  A failure result does not mean that nothing was transmitted: when
    the server took the message and the closing of the [with] block then
    raises an [Exception], [execute] reports [message_sent = false],
    although the full session, [sendmail] included, took place; when
    neither [to] nor [subject] holds a surrogate, the error is the text of
    that exception after ["Error sending email: "]. *)
Theorem quit_failure_reported (w : World) (to subj body : string)
    (cc bcc : option (list string)) (is_html : bool) (tr tr1 : trace)
    (c : EmailConfig) (e : exn) :
  _get_email_config w tr = (Return (Some c), tr1) ->
  mime_text_error w body (content_type is_html) = None ->
  session_delivered w c (built_message c to subj body cc is_html)
    (recipient_list to cc bcc) tr ->
  quit_reply w c (built_message c to subj body cc is_html)
    (recipient_list to cc bcc) tr = Some e ->
  is_Exception e = true ->
  exists r logs,
    execute w to subj body cc bcc is_html tr
    = (Return r,
       (tr ++ full_session c (built_message c to subj body cc is_html)
                 (recipient_list to cc bcc)
           ++ logs)%list)
    /\ message_sent r = false
    /\ smtp_calls logs = []
    /\ (clean to subj = true ->
        r = failed_result to subj ("Error sending email: " ++ str e)
        /\ logs = [Log ERROR ("Error sending email: " ++ str e)]).
Proof.
  intros Hcfg Hmime Hdel Hquit He.
  destruct (get_email_config_Some w tr tr1 c Hcfg) as [-> _].
  rewrite execute_eq, Hcfg, Hmime.
  assert (Hsend : _send w c (built_message c to subj body cc is_html)
                    (recipient_list to cc bcc) tr
                  = (Raise e, (tr ++ full_session c
                                       (built_message c to subj body cc is_html)
                                       (recipient_list to cc bcc))%list)).
  { revert Hdel Hquit.
    generalize (built_message c to subj body cc is_html) as msg.
    generalize (recipient_list to cc bcc) as recipients.
    intros recipients msg.
    unfold session_delivered, quit_reply, full_session.
    intros (H1 & H2 & H3 & H4 & H5) Hq.
    unfold _send, with_SMTP, smtp_call, as_string, bind, ret, raise,
      tls_steps, connect_ev, login_ev, sendmail_ev in *.
    destruct (use_tls c); simpl in *; rewrite ?app_nil_r in *.
    - rewrite H1, (H2 eq_refl), H3, H4, H5, Hq. rewrite <- !app_assoc. reflexivity.
    - rewrite H1, H3, H4, H5, Hq. rewrite <- !app_assoc. reflexivity. }
  rewrite Hsend.
  exists (match fst (report to subj (Raise e)) with
          | Return r => r
          | Raise _ => failed_result to subj ""
          end), (snd (report to subj (Raise e))).
  pose proof (proj1 (report_logs to subj (Raise e))) as Hlogs.
  unfold report in *. rewrite He in *.
  destruct (clean to subj); simpl; rewrite <- app_assoc;
    (split; [reflexivity|]); (split; [reflexivity|]); (split; [exact Hlogs|]).
  - intros _. split; reflexivity.
  - discriminate.
Qed.

(** A server that takes everything and fails the QUIT. *)
Lemma quit_failure_reported_witness :
  exists tr',
    execute
      (Worlds.world_of
         (Worlds.app_config (Worlds.section (PyInt 587) (PyStr "hunter2")))
         (fun _ ev => match ev with
                      | SmtpQuit => Some (mk_exn SMTPException "(421, b'busy')")
                      | _ => None
                      end))
      "a@x.com" "Hi" "hello" None None false []
    = (Return (failed_result "a@x.com" "Hi" "Error sending email: (421, b'busy')"),
       tr').
Proof.
  destruct (quit_failure_reported
              (Worlds.world_of
                 (Worlds.app_config (Worlds.section (PyInt 587) (PyStr "hunter2")))
                 (fun _ ev => match ev with
                              | SmtpQuit => Some (mk_exn SMTPException "(421, b'busy')")
                              | _ => None
                              end))
              "a@x.com" "Hi" "hello" None None false [] []
              (Worlds.settings "hunter2") (mk_exn SMTPException "(421, b'busy')"))
    as (r & logs & Hrun & _ & _ & Hclean).
  - reflexivity.
  - reflexivity.
  - repeat split.
  - reflexivity.
  - reflexivity.
  - destruct (Hclean eq_refl) as [-> _]. eexists. exact Hrun.
Defined.

(** ** More on the configuration resolver *)

(** X10.  A configuration that the resolver returns holds what the section
    holds: each of the four required attributes is present and the field is
    its validated value; [use_tls] is the validated value of the attribute
    when the section has one and of [True] when it has none. *)
Theorem resolved_config_fields (w : World) (tr tr1 : trace) (c : EmailConfig) :
  _get_email_config w tr = (Return (Some c), tr1) ->
  exists ec server port username password,
    lookup_attr (config w) "email_config" = Some ec
    /\ lookup_attr ec "smtp_server" = Some server
    /\ validate_str w server = Some (smtp_server c)
    /\ lookup_attr ec "smtp_port" = Some port
    /\ validate_int w port = Some (smtp_port c)
    /\ lookup_attr ec "smtp_username" = Some username
    /\ validate_str w username = Some (smtp_username c)
    /\ lookup_attr ec "smtp_password" = Some password
    /\ validate_str w password = Some (smtp_password c)
    /\ validate_bool w (match lookup_attr ec "use_tls" with
                        | Some tls => tls
                        | None => PyBool true
                        end) = Some (use_tls c).
Proof.
  unfold _get_email_config, EmailConfig_new, hasattr, getattr_default. run.
  destruct (lookup_attr (config w) "email_config") as [ec|] eqn:Hec; simpl;
    [|discriminate].
  destruct (lookup_attr ec "smtp_server") as [server|] eqn:H1; simpl; [|discriminate].
  destruct (lookup_attr ec "smtp_port") as [port|] eqn:H2; simpl; [|discriminate].
  destruct (lookup_attr ec "smtp_username") as [username|] eqn:H3; simpl;
    [|discriminate].
  destruct (lookup_attr ec "smtp_password") as [password|] eqn:H4; simpl;
    [|discriminate].
  destruct (validate_str w server) eqn:V1; [|discriminate].
  destruct (validate_int w port) eqn:V2; [|discriminate].
  destruct (validate_str w username) eqn:V3; [|discriminate].
  destruct (validate_str w password) eqn:V4; [|discriminate].
  destruct (validate_bool w _) eqn:V5; [|discriminate].
  simpl. intros H. inversion H; subst. simpl.
  exists ec, server, port, username, password. repeat split; assumption.
Qed.

(** X10 at a section without a [use_tls] attribute: TLS is on. *)
Lemma resolved_config_fields_witness :
  exists ec,
    lookup_attr (config Worlds.no_tls_flag) "email_config" = Some ec
    /\ lookup_attr ec "use_tls" = None
    /\ _get_email_config Worlds.no_tls_flag []
       = (Return (Some (Worlds.settings "hunter2")), [])
    /\ use_tls (Worlds.settings "hunter2") = true.
Proof.
  destruct (resolved_config_fields Worlds.no_tls_flag [] []
              (Worlds.settings "hunter2") eq_refl)
    as (ec & server & port & username & password & Hec & _ & _ & _ & _ & _ & _ & _ & _ & H).
  exists ec. split; [exact Hec|].
  inversion Hec; subst ec. repeat split.
Defined.

(** The entry a failed resolution leaves in the log. *)
Lemma get_email_config_missing (w : World) (tr : trace) (ec : pyval) (name : string) :
  lookup_attr (config w) "email_config" = Some ec ->
  first_missing ec = Some name ->
  _get_email_config w tr
  = (Return None,
     (tr ++ [Log ERROR ("Missing email configuration: '" ++ type_name ec
                        ++ "' object has no attribute '" ++ name ++ "'")])%list).
Proof.
  intros Hec Hmiss.
  unfold _get_email_config, first_missing, required_fields, hasattr in *. run.
  rewrite Hec. simpl.
  destruct (lookup_attr ec "smtp_server"); simpl in *;
    [|inversion Hmiss; reflexivity].
  destruct (lookup_attr ec "smtp_port"); simpl in *;
    [|inversion Hmiss; reflexivity].
  destruct (lookup_attr ec "smtp_username"); simpl in *;
    [|inversion Hmiss; reflexivity].
  destruct (lookup_attr ec "smtp_password"); simpl in *;
    [|inversion Hmiss; reflexivity].
  discriminate.
Qed.

Lemma get_email_config_not_found (w : World) (tr : trace) :
  hasattr (config w) "email_config" = false ->
  _get_email_config w tr
  = (Return None,
     (tr ++ [Log ERROR "Email configuration not found in app config"])%list).
Proof.
  intros Hno. unfold _get_email_config. rewrite Hno. reflexivity.
Qed.

(** X11.  The error entry of a failed resolution says what is missing: the
    absence of the section when the configuration object has no
    [email_config] attribute, and otherwise the first of [smtp_server],
    [smtp_port], [smtp_username], [smtp_password] that the section lacks,
    with the class of the section. *)
Theorem missing_attribute_logged (w : World) (tr : trace) :
  (hasattr (config w) "email_config" = false ->
   _get_email_config w tr
   = (Return None,
      (tr ++ [Log ERROR "Email configuration not found in app config"])%list))
  /\ (forall ec name,
        lookup_attr (config w) "email_config" = Some ec ->
        first_missing ec = Some name ->
        _get_email_config w tr
        = (Return None,
           (tr ++ [Log ERROR ("Missing email configuration: '" ++ type_name ec
                              ++ "' object has no attribute '" ++ name ++ "'")])%list)).
Proof.
  split.
  - apply get_email_config_not_found.
  - intros ec name. apply get_email_config_missing.
Qed.

(** X11 at a section that is [None]. *)
Lemma missing_attribute_logged_witness :
  _get_email_config (Worlds.world_of (Worlds.app_config PyNone) Worlds.accepting) []
  = (Return None,
     [Log ERROR
        "Missing email configuration: 'NoneType' object has no attribute 'smtp_server'"]).
Proof.
  apply (proj2 (missing_attribute_logged
                  (Worlds.world_of (Worlds.app_config PyNone) Worlds.accepting) [])
           PyNone "smtp_server").
  - reflexivity.
  - reflexivity.
Defined.

(** ** More on the dispatcher and the message *)

(** X12.  [_send_email_async] needs a message with a To and a Subject
    header: for a message that lacks one of them it never returns a result,
    whether the session succeeded or failed.  [EmailResult] rejects the
    missing value, in the [try] and again in the handler, so the call ends
    with [ValidationError] (or with the exception of the session when that
    one is outside [Exception]); when the session went through, the message
    has been sent all the same. *)
Theorem dispatch_needs_headers (w : World) (c : EmailConfig) (msg : Message)
    (recipients : list string) (tr : trace) :
  msg_get msg "To" = None \/ msg_get msg "Subject" = None ->
  exists x,
    fst (_send_email_async w c msg recipients tr) = Raise x
    /\ (x = validation_error "EmailResult" \/ is_Exception x = false)
    /\ (forall tr', _send w c msg recipients tr = (Return tt, tr') ->
        x = validation_error "EmailResult"
        /\ exists logs,
             snd (_send_email_async w c msg recipients tr)
             = (tr ++ full_session c msg recipients ++ logs)%list
             /\ smtp_calls logs = []).
Proof.
  intros Hmiss.
  assert (Hnew : forall sent err t,
            EmailResult_new (valid_str (msg_getitem msg "To"))
              (valid_str (msg_getitem msg "Subject")) sent err t
            = (Raise (validation_error "EmailResult"), t)).
  { intros sent err t. unfold EmailResult_new, msg_getitem.
    destruct Hmiss as [-> | ->]; simpl; [reflexivity|].
    destruct (valid_str _); reflexivity. }
  destruct (_send w c msg recipients tr) as [[[]|e] tr1] eqn:Hsend.
  - destruct (send_returned _ _ _ _ _ _ Hsend) as [-> _].
    assert (Hrun : exists logs,
              _send_email_async w c msg recipients tr
              = (Raise (validation_error "EmailResult"),
                 (tr ++ full_session c msg recipients ++ logs)%list)
              /\ smtp_calls logs = []).
    { unfold _send_email_async, try_except, bind at 1. rewrite Hsend.
      generalize (full_session c msg recipients) as session. intros session.
      assert (Hbody : exists x logs,
                ((to_text <- header_text (msg_getitem msg "To") ;;
                  subject_text <- header_text (msg_getitem msg "Subject") ;;
                  logger INFO ("Email sent successfully to " ++ to_text
                               ++ " with subject '" ++ subject_text ++ "'") ;;
                  EmailResult_new (valid_str (msg_getitem msg "To"))
                    (valid_str (msg_getitem msg "Subject")) true None)
                   (tr ++ session)%list)
                = (Raise x, (tr ++ session ++ logs)%list)
                /\ is_Exception x = true /\ smtp_calls logs = []).
      { unfold bind, header_text, logger, emit, ret, raise.
        destruct (msg_getitem msg "To") as [[s|s]|];
          destruct (msg_getitem msg "Subject") as [[s'|s']|];
          try destruct (header_str s); try destruct (header_str s');
          rewrite ?Hnew;
          first [ solve [exists header_str_error, []; rewrite app_nil_r;
                         repeat split; reflexivity]
                | solve [eexists; eexists; rewrite <- app_assoc;
                         repeat split; reflexivity] ]. }
      destruct Hbody as (x & logs & -> & Hx & Hlogs).
      rewrite Hx. unfold bind, logger, emit. rewrite Hnew.
      exists (logs ++ [Log ERROR ("Error sending email: " ++ str x)])%list.
      split; [rewrite <- !app_assoc; reflexivity|].
      unfold smtp_calls in *. rewrite filter_app, Hlogs. reflexivity. }
    destruct Hrun as (logs & -> & Hlogs). simpl.
    eexists. split; [reflexivity|]. split; [left; reflexivity|].
    intros tr' _. split; [reflexivity|].
    exists logs. split; [reflexivity|exact Hlogs].
  - assert (Hrun : fst (_send_email_async w c msg recipients tr)
                   = Raise (if is_Exception e then validation_error "EmailResult"
                            else e)).
    { unfold _send_email_async, try_except, bind at 1. rewrite Hsend.
      destruct (is_Exception e); [|reflexivity].
      unfold bind, logger, emit. rewrite Hnew. reflexivity. }
    rewrite Hrun. eexists. split; [reflexivity|]. split.
    + destruct (is_Exception e) eqn:He; [left; reflexivity|right; exact He].
    + intros tr' H. discriminate.
Qed.

(** X12 at a message without any header. *)
Lemma dispatch_needs_headers_witness :
  exists x,
    fst (_send_email_async Worlds.working (Worlds.settings "hunter2") MIMEMultipart
           ["a@x.com"] []) = Raise x
    /\ (x = validation_error "EmailResult" \/ is_Exception x = false).
Proof.
  destruct (dispatch_needs_headers Worlds.working (Worlds.settings "hunter2")
              MIMEMultipart ["a@x.com"] []) as (x & Hx & Hcls & _).
  - left. reflexivity.
  - exists x. split; [exact Hx|exact Hcls].
Defined.

(** X13.  The message and the envelope agree: in every [sendmail] call of
    [execute] the envelope sender is the From header, [to] is both the To
    header and the first envelope recipient, the Subject header is
    [subject], and the envelope holds one entry for [to] and one for each
    entry of [cc] and [bcc]: nothing is dropped, merged or reordered. *)
Theorem envelope_matches_headers (w : World) (to subj body : string)
    (cc bcc : option (list string)) (is_html : bool) (tr : trace) :
  exists evs,
    snd (execute w to subj body cc bcc is_html tr) = (tr ++ evs)%list
    /\ forall f r m,
         In (SmtpSendmail f r m) evs ->
         msg_get m "From" = Some f
         /\ msg_get m "To" = Some to
         /\ msg_get m "Subject" = Some subj
         /\ hd_error r = Some to
         /\ length r = (1 + length (opt_list cc) + length (opt_list bcc))%nat.
Proof.
  destruct (execute_sendmail w to subj body cc bcc is_html tr)
    as (evs & Htr & Hargs).
  exists evs. split; [exact Htr|].
  intros f r m Hin. destruct (Hargs f r m Hin) as (c & _ & -> & -> & ->).
  rewrite recipient_list_app, !length_app.
  repeat split; try reflexivity; destruct cc as [[|a l]|]; reflexivity.
Qed.

(** X14.  [populate_output] touches the output only: recipient, subject,
    [message_sent] and error stay as they are, and running the validator a
    second time changes nothing. *)
Theorem populate_output_idempotent (r : EmailResult) :
  populate_output (populate_output r) = populate_output r
  /\ recipient (populate_output r) = recipient r
  /\ subject (populate_output r) = subject r
  /\ message_sent (populate_output r) = message_sent r
  /\ error (populate_output r) = error r.
Proof.
  unfold populate_output.
  destruct (truthy_str (error r)) eqn:He.
  - rewrite He. repeat split.
  - simpl. rewrite He. repeat split.
Qed.

(** ** The test script *)

(** X15.  Without a usable configuration (no [email_config] attribute, or a
    section that lacks a required attribute) the script prints the
    configuration hint and returns: whatever its arguments and its input
    are, it does not prompt, does not call [execute] and makes no SMTP
    call. *)
Theorem script_without_configuration (w : World) (con : Console) :
  hasattr (config w) "email_config" = false
  \/ (exists ec name,
        lookup_attr (config w) "email_config" = Some ec
        /\ first_missing ec = Some name) ->
  exists text,
    test_email_sender w con
    = {| ended := Finished; prompted := false;
         script_trace :=
           [Log ERROR text;
            Log ERROR "Email configuration is missing or incomplete in config.toml";
            Log INFO "Please add the following to your config/config.toml file:";
            Log INFO config_hint] |}.
Proof.
  intros [Hno | (ec & name & Hec & Hmiss)]; unfold test_email_sender.
  - rewrite (get_email_config_not_found w [] Hno). eexists. reflexivity.
  - rewrite (get_email_config_missing w [] ec name Hec Hmiss). eexists. reflexivity.
Qed.

(** X15 at a configuration object without [email_config], with a recipient
    on the command line. *)
Lemma script_without_configuration_witness :
  prompted (test_email_sender Worlds.unconfigured
              {| argv := ["test_email_tool.py"; "bob@x.com"]; stdin := None |}) = false
  /\ smtp_calls (script_trace
                   (test_email_sender Worlds.unconfigured
                      {| argv := ["test_email_tool.py"; "bob@x.com"];
                         stdin := None |})) = [].
Proof.
  destruct (script_without_configuration Worlds.unconfigured
              {| argv := ["test_email_tool.py"; "bob@x.com"]; stdin := None |})
    as [text ->].
  - left. reflexivity.
  - split; reflexivity.
Defined.

(** The entry the script writes before it calls [execute]. *)
Lemma script_configured (w : World) (con : Console) (c : EmailConfig) (tr1 : trace) :
  _get_email_config w [] = (Return (Some c), tr1) ->
  test_email_sender w con =
  match read_recipient con with
  | None => {| ended := EndOfInput; prompted := (length (argv con) <? 2)%nat;
               script_trace := [] |}
  | Some recipient =>
      match execute w recipient test_subject test_body None None false
              [Log INFO ("Sending test email to " ++ recipient ++ "...")] with
      | (Raise e, tr') =>
          {| ended := Crashed e; prompted := (length (argv con) <? 2)%nat;
             script_trace := tr' |}
      | (Return result, tr') =>
          {| ended := Finished; prompted := (length (argv con) <? 2)%nat;
             script_trace :=
               (tr' ++ [if message_sent result
                        then Log INFO "Email sent successfully!"
                        else Log ERROR ("Failed to send email: "
                                        ++ fmt (error result))])%list |}
      end
  end.
Proof.
  intros Hc. destruct (get_email_config_Some w [] tr1 c Hc) as [-> _].
  unfold test_email_sender. rewrite Hc. reflexivity.
Qed.

(** X16.  Every mail the script sends goes to one address only, the second
    command-line argument when there is one and the line read from the
    terminal otherwise, with the subject ["Test Email from OpenManus"], no
    Cc header and the fixed plain-text body; the script prompts only when
    the command line gives no recipient. *)
Theorem script_mail (w : World) (con : Console) (f : string) (r : list string)
    (m : Message) :
  In (SmtpSendmail f r m) (script_trace (test_email_sender w con)) ->
  exists recipient,
    (if (length (argv con) <? 2)%nat
     then stdin con = Some recipient
          /\ prompted (test_email_sender w con) = true
     else nth_error (argv con) 1 = Some recipient
          /\ prompted (test_email_sender w con) = false)
    /\ r = [recipient]
    /\ msg_get m "To" = Some recipient
    /\ msg_get m "Subject" = Some "Test Email from OpenManus"
    /\ msg_get m "Cc" = None
    /\ parts m = [{| subtype := "plain"; payload := test_body |}].
Proof.
  destruct (get_email_config_cases w []) as [[c Hc] | [[text Hn] | Hr]].
  - rewrite (script_configured w con c [] Hc). unfold read_recipient.
    destruct (length (argv con) <? 2)%nat eqn:Hlen;
      match goal with
      | |- context [match ?o with Some _ => _ | None => _ end] =>
          destruct o as [recipient|] eqn:Hrec
      end; simpl; try contradiction.
    all: destruct (execute_sendmail w recipient test_subject test_body None None false
                     [Log INFO ("Sending test email to " ++ recipient ++ "...")])
           as (evs & Htr & Hargs).
    all: destruct (execute w recipient test_subject test_body None None false _)
           as [[res|e] tr']; simpl in *; subst tr'.
    all: intros Hin;
         assert (Hev : In (SmtpSendmail f r m) evs)
           by (repeat (apply in_app_or in Hin; destruct Hin as [Hin|Hin]);
               simpl in Hin;
               try (destruct Hin as [Hin|[]]; try discriminate;
                    destruct (message_sent res); discriminate);
               try (destruct Hin as [Hin|Hin]; [discriminate|]);
               try contradiction; assumption).
    all: destruct (Hargs f r m Hev) as (c0 & _ & _ & -> & ->);
         exists recipient; repeat split; reflexivity.
  - unfold test_email_sender. rewrite Hn. simpl.
    intros [H|[H|[H|[H|[]]]]]; discriminate.
  - unfold test_email_sender. rewrite Hr. simpl. intros [].
Qed.

(** X16 with the recipient on the command line. *)
Lemma script_mail_witness :
  exists recipient,
    nth_error ["test_email_tool.py"; "bob@x.com"] 1 = Some recipient
    /\ [recipient] = ["bob@x.com"].
Proof.
  destruct (script_mail Worlds.working
              {| argv := ["test_email_tool.py"; "bob@x.com"]; stdin := None |}
              "agent@example.com" ["bob@x.com"]
              (built_message (Worlds.settings "hunter2") "bob@x.com" test_subject
                 test_body None false))
    as (recipient & Hrec & Hr & _).
  - vm_compute. do 4 right. left. reflexivity.
  - simpl in Hrec. exists recipient. split; [apply Hrec|]. symmetry. exact Hr.
Defined.


(** X17.  A script run that finishes ends in one of four ways: with the
    configuration hint; with ["Email sent successfully!"] after a full SMTP
    session to the recipient; with ["Failed to send email: Error sending
    email: "] and the text of the exception that ended the session, the
    tool's own prefix under the script's; or, only for a recipient that
    holds a surrogate, with the prefix ["Failed to send email: "] twice. *)
Theorem script_report (w : World) (con : Console) :
  ended (test_email_sender w con) = Finished ->
  (exists text,
     script_trace (test_email_sender w con)
     = [Log ERROR text;
        Log ERROR "Email configuration is missing or incomplete in config.toml";
        Log INFO "Please add the following to your config/config.toml file:";
        Log INFO config_hint])
  \/ (exists c recipient,
        read_recipient con = Some recipient
        /\ script_trace (test_email_sender w con)
           = (Log INFO ("Sending test email to " ++ recipient ++ "...")
              :: full_session c
                   (built_message c recipient test_subject test_body None false)
                   [recipient]
              ++ [sent_log recipient test_subject;
                  Log INFO "Email sent successfully!"])%list)
  \/ (exists recipient e calls,
        read_recipient con = Some recipient
        /\ log_entries calls = []
        /\ script_trace (test_email_sender w con)
           = (Log INFO ("Sending test email to " ++ recipient ++ "...")
              :: calls
              ++ [Log ERROR ("Error sending email: " ++ str e);
                  Log ERROR ("Failed to send email: Error sending email: "
                             ++ str e)])%list)
  \/ (exists recipient front text,
        read_recipient con = Some recipient
        /\ has_surrogates recipient = true
        /\ script_trace (test_email_sender w con)
           = (front
              ++ [Log ERROR ("Failed to send email: Failed to send email: "
                             ++ text)])%list).
Proof.
  destruct (get_email_config_cases w []) as [[c Hc] | [[text Hn] | Hr]].
  - rewrite (script_configured w con c [] Hc).
    destruct (read_recipient con) as [recipient|]; [|discriminate].
    rewrite execute_eq.
    destruct (get_email_config_Some w [] [] c Hc) as [_ Hagain].
    rewrite Hagain.
    destruct (mime_text_error w test_body (content_type false)); [discriminate|].
    destruct (send_trace w c
                (built_message c recipient test_subject test_body None false)
                (recipient_list recipient None None)
                [Log INFO ("Sending test email to " ++ recipient ++ "...")])
      as (o & evs & Heq & Hin).
    assert (Hclean : clean recipient test_subject = negb (has_surrogates recipient)).
    { unfold clean. destruct (has_surrogates recipient); reflexivity. }
    destruct (has_surrogates recipient) eqn:Hs; simpl in Hclean.
    + rewrite Heq. unfold report. rewrite Hclean.
      destruct o as [u|e]; [|destruct (is_Exception e); [|discriminate]];
        cbn [fst snd message_sent failed_result error fmt]; intros _;
        right; right; right;
        exists recipient; eexists; exists (str (validation_error "EmailResult"));
        (split; [reflexivity|]); (split; [exact Hs|]); reflexivity.
    + destruct o as [[]|e].
      * destruct (send_returned _ _ _ _ _ _ Heq) as [Htr _].
        rewrite Heq, Htr, (report_clean _ _ _ Hclean). simpl. intros _. right. left.
        exists c, recipient. split; [reflexivity|].
        rewrite <- !app_assoc. reflexivity.
      * rewrite Heq, (report_clean _ _ _ Hclean).
        destruct (is_Exception e); [|discriminate].
        simpl. intros _. right. right. left.
        exists recipient, e, evs. split; [reflexivity|].
        split; [exact (proj2 (sessions_no_log _ _ _ _ Hin))|].
        rewrite <- !app_assoc. reflexivity.
  - unfold test_email_sender. rewrite Hn. simpl. intros _. left.
    eexists. reflexivity.
  - unfold test_email_sender. rewrite Hr. discriminate.
Qed.

(** X17 at a server that rejects the login. *)
Lemma script_report_witness :
  exists rest,
    script_trace (test_email_sender Worlds.echoing
                    {| argv := ["test_email_tool.py"; "carol@x.com"]; stdin := None |})
    = (rest ++ [Log ERROR "Failed to send email: Error sending email: (535, b'bad credentials: hunter2')"])%list.
Proof.
  destruct (script_report Worlds.echoing
              {| argv := ["test_email_tool.py"; "carol@x.com"]; stdin := None |}
              eq_refl)
    as [[text H] | [(c & rcp & _ & H) | [(rcp & e & calls & _ & _ & H)
                                         | (rcp & front & text & Hr & Hs & _)]]].
  - vm_compute in H. discriminate H.
  - exfalso. destruct c as [server port user password [|]];
      vm_compute in H; discriminate H.
  - eexists
      [Log INFO "Sending test email to carol@x.com...";
       SmtpConnect "smtp.example.com" 587; SmtpStartTLS;
       SmtpLogin "agent@example.com" "hunter2"; SmtpQuit;
       Log ERROR "Error sending email: (535, b'bad credentials: hunter2')"].
    reflexivity.
  - exfalso. vm_compute in Hr. inversion Hr; subst rcp. discriminate Hs.
Defined.


